(** * key-tree: BIP-32 / BIP-39 derivers

    A shallow embedding of [derivers/bip32.ts], of the two revisions of
    [derivers/bip39.ts] and of [derivers/index.ts], together with the
    properties of the derivation engine, of the seed-to-master-key
    transform and of the Ethereum address helpers.

    Conventions of the embedding:
    - a [Uint8Array] / [Buffer] is a [list byte];
    - a JavaScript number that the code only uses as an integer is a [Z]
      (the values compared against 2^31 are far inside the range where
      doubles are exact); [NaN] is [None];
    - a thrown exception is the [Err] case of [result]; [await] is
      sequencing in that monad;
    - the functions the derivers import from [./shared], [../utils],
      [../curves] and [../SLIP10Node], and the hash library, are
      interfaces (type classes), or are modelled from the specification
      where the specification fixes their behaviour;
    - [deriveNode] recurses on the distance of the child index to 2^31;
      it is run on closed arguments through its unfolding equation
      [deriveNode_eq]. *)

From Stdlib Require Import ZArith List String Ascii Bool Lia.
From Stdlib Require Import Strings.Byte.
From Equations Require Import Equations.
Import ListNotations.

Open Scope Z_scope.

(* ===================================================================== *)
(** ** Bytes, errors and results *)
(* ===================================================================== *)

Definition bytes := list byte.

(** The two exception classes the sources raise: [throw new Error(msg)]
    and a failed [assert(cond, msg)] of [@metamask/utils]. *)
Inductive error : Type :=
| Error (message : string)
| AssertionError (message : string).

Definition message (e : error) : string :=
  match e with
  | Error m => m
  | AssertionError m => m
  end.

Inductive result (A : Type) : Type :=
| Ok (value : A)
| Err (e : error).
Arguments Ok {A} value.
Arguments Err {A} e.

Definition bind {A B : Type} (r : result A) (k : A -> result B) : result B :=
  match r with
  | Ok a => k a
  | Err e => Err e
  end.

Notation "x <- c ;; k" := (bind c (fun x => k))
  (at level 61, c at next level, right associativity).

Definition assert (cond : bool) (msg : string) : result unit :=
  if cond then Ok tt else Err (AssertionError msg).

Definition isOk {A : Type} (r : result A) : bool :=
  match r with
  | Ok _ => true
  | Err _ => false
  end.

(** The error kinds of the specification (section 7), recognised by the
    prefix of the message.  Section 4.3 puts the path-shape and curve
    checks of [deriveChildKey] under [InvalidParameters]. *)
Inductive ErrorKind : Type :=
| InvalidParameters
| InvalidIndex
| InvalidPrivateKey
| InvalidKey
| OtherError.

Definition errorKind (e : error) : ErrorKind :=
  let m := message e in
  if (prefix "Invalid parameters:" m || prefix "Invalid path:" m
      || prefix "Invalid curve:" m)%bool then InvalidParameters
  else if prefix "Invalid BIP-32 index:" m then InvalidIndex
  else if prefix "Invalid private key:" m then InvalidPrivateKey
  else if prefix "Invalid key:" m then InvalidKey
  else OtherError.

(** [Array.prototype.slice(start, end)] on a typed array: negative
    positions count from the end, everything is clamped to the length,
    and a missing [end] is the length. *)
Definition clampIndex (len i : Z) : Z :=
  if i <? 0 then Z.max (len + i) 0 else Z.min i len.

Definition slice {A : Type} (l : list A) (start : Z) (stop : option Z) : list A :=
  let len := Z.of_nat (List.length l) in
  let from := clampIndex len start in
  let to := match stop with
            | Some e => clampIndex len e
            | None => len
            end in
  firstn (Z.to_nat (to - from)) (skipn (Z.to_nat from) l).

(** [bytesToBigInt] of [@metamask/utils]: the big-endian value. *)
Definition bytesToBigInt (b : bytes) : Z :=
  fold_left (fun acc x => acc * 256 + Z.of_N (Byte.to_N x)) b 0.

(* ===================================================================== *)
(** ** Constants and small helpers of the repository *)
(* ===================================================================== *)

(** Modelled from the spec: [BIP_32_HARDENED_OFFSET] of [../constants]
    (section 3: the hardened offset is 2^31). *)
Definition BIP_32_HARDENED_OFFSET : Z := 2147483648.

(** Modelled from the spec: [BYTES_KEY_LENGTH] of [../constants]
    (private keys and chain codes are 32 bytes). *)
Definition BYTES_KEY_LENGTH : Z := 32.

(** Modelled from the spec: [isValidBytesKey] of [../utils] (section 4.6:
    a key of the expected length that is not all zero). *)
Definition isValidBytesKey (b : bytes) (expectedLength : Z) : bool :=
  (Z.of_nat (List.length b) =? expectedLength)
  && existsb (fun x => negb (Byte.eqb x x00)) b.

(** The text of the specification for the exhausted retry. *)
Definition msgNoValidChild : string :=
  "Invalid BIP-32 index: no valid child key found.".

(** Modelled from the spec: [validateBIP32Index] of [../utils] (sections
    4.3 and 7: a child index must satisfy 0 <= index < 2^31, otherwise
    the failure is [InvalidIndex]). *)
Definition validateBIP32Index (addressIndex : Z) : result unit :=
  if (0 <=? addressIndex) && (addressIndex <? BIP_32_HARDENED_OFFSET)
  then Ok tt
  else Err (Error msgNoValidChild).

(* ===================================================================== *)
(** ** Curves, nodes and the injected primitives *)
(* ===================================================================== *)

(** The fields of a [Curve] object that the derivers read.  The second
    argument of [getPublicKey] is the optional [compressed] flag
    ([None] when the call leaves it out). *)
Record Curve : Type := mkCurve {
  name : string;
  curve_n : Z;                       (* curve.curve.n *)
  secret : bytes;
  publicKeyLength : Z;
  getPublicKey : bytes -> option bool -> result bytes
}.

Inductive Network : Type := mainnet | testnet.

(** The hash functions of [@noble/hashes]. *)
Class Hashes : Type := {
  hmac_sha512 : bytes -> bytes -> bytes;   (* hmac(sha512, key, message) *)
  keccak256 : bytes -> bytes
}.

(** The [path] field of [DeriveChildKeyArgs]: a string or raw bytes
    ([path: Uint8Array | string]). *)
Inductive PathSegment : Type :=
| PathString (s : string)
| PathBytes (b : bytes).

(** What [../utils] and [../curves] provide to the node: the fingerprint
    of a compressed public key and the registry of curves by name. *)
Class NodeEnv : Type := {
  getFingerprint : bytes -> Z;
  getCurveByName : string -> option Curve
}.

(** The mnemonic-to-seed expansion of [@scure/bip39]. *)
Class MnemonicLib : Type := {
  englishWordlist : list string;
  mnemonicToSeed : PathSegment -> list string -> result bytes;
  mnemonicToSeedSync : string -> result bytes
}.

(* ===================================================================== *)
(** ** SLIP10Node *)
(* ===================================================================== *)

Module Node.

(** The key node, with the fields and read-only views the derivers use.
    [node.privateKey], the hexadecimal view of the private key, is
    present exactly when [privateKeyBytes] is. *)
Record SLIP10Node : Type := mkNode {
  depth : Z;
  masterFingerprint : option Z;
  parentFingerprint : Z;
  index : Z;
  chainCodeBytes : bytes;
  privateKeyBytes : option bytes;
  compressedPublicKeyBytes : bytes;
  curve : string
}.

Definition fingerprint `{NodeEnv} (nd : SLIP10Node) : Z :=
  getFingerprint (compressedPublicKeyBytes nd).

Definition msgUnknownCurve : string :=
  "Invalid curve: Unknown curve name.".
Definition msgChainCode : string :=
  "Invalid chain code: Must be a 32-byte Uint8Array.".
Definition msgPrivateKey : string :=
  "Invalid private key: Must be a 32-byte non-zero scalar less than the curve order.".
Definition msgNoKey : string :=
  "Invalid parameters: Must specify a private key or a public key.".

(** Modelled from the spec: [SLIP10Node.fromExtendedKey] of
    [../SLIP10Node] (sections 4.2 and 6): the curve is looked up by name,
    the chain code must be exactly 32 bytes, a private key must be
    exactly 32 bytes and a non-zero scalar below the curve order, and the
    public key is computed when only a private key is given. *)
Definition fromExtendedKey `{NodeEnv}
    (privateKey publicKey : option bytes) (chainCode : bytes)
    (masterFingerprint : option Z) (depth parentFingerprint index : Z)
    (curve : string) : result SLIP10Node :=
  match getCurveByName curve with
  | None => Err (Error msgUnknownCurve)
  | Some c =>
    _ <- assert (Z.of_nat (List.length chainCode) =? BYTES_KEY_LENGTH)
                msgChainCode ;;
    match privateKey, publicKey with
    | Some sk, _ =>
      _ <- assert ((Z.of_nat (List.length sk) =? BYTES_KEY_LENGTH)
                   && (0 <? bytesToBigInt sk)
                   && (bytesToBigInt sk <? curve_n c))
                  msgPrivateKey ;;
      pk <- getPublicKey c sk (Some true) ;;
      Ok (mkNode depth masterFingerprint parentFingerprint index
                 chainCode (Some sk) pk curve)
    | None, Some pk =>
      Ok (mkNode depth masterFingerprint parentFingerprint index
                 chainCode None pk curve)
    | None, None => Err (Error msgNoKey)
    end
  end.

End Node.

Abbreviation SLIP10Node := Node.SLIP10Node.

(* ===================================================================== *)
(** ** derivers/index.ts *)
(* ===================================================================== *)

Module Derivers.

Record DeriveChildKeyArgs : Type := mkArgs {
  path : PathSegment;
  curve : Curve;
  node : option SLIP10Node;
  network : option Network
}.

End Derivers.

Abbreviation DeriveChildKeyArgs := Derivers.DeriveChildKeyArgs.

(* ===================================================================== *)
(** ** derivers/bip39.ts, earlier revision (returns a tuple) *)
(* ===================================================================== *)

Module Bip39Tuple.

(** [createBip39KeyFromSeed(seed, curve)] returning
    [[privateKey, publicKey, chainCode]]. *)
Definition createBip39KeyFromSeed `{Hashes} (seed : bytes) (curve : Curve)
  : result (bytes * bytes * bytes) :=
  let key := hmac_sha512 (secret curve) seed in
  let privateKey := slice key 0 (Some 32) in
  publicKey <- getPublicKey curve privateKey None ;;
  Ok (privateKey, publicKey, slice key 32 (Some 64)).

(** [deriveChildKey(pathPart, _, _, _, curve)]: the parent arguments are
    typed [never] and ignored. *)
Definition deriveChildKey `{Hashes} `{MnemonicLib}
    (pathPart : string) (curve : Curve) : result (bytes * bytes * bytes) :=
  seed <- mnemonicToSeedSync pathPart ;;
  createBip39KeyFromSeed seed curve.

End Bip39Tuple.

(* ===================================================================== *)
(** ** derivers/bip39.ts, current revision (returns a SLIP10Node) *)
(* ===================================================================== *)

Module Bip39.

Definition msgInvalidPrivateKey : string :=
  "Invalid private key: The private key must larger than 0 and less than the curve order.".

(** [createBip39KeyFromSeed(seed, curve)]. *)
Definition createBip39KeyFromSeed `{Hashes} `{NodeEnv}
    (seed : bytes) (curve : Curve) : result SLIP10Node :=
  let key := hmac_sha512 (secret curve) seed in
  let privateKey := slice key 0 (Some BYTES_KEY_LENGTH) in
  let chainCode := slice key BYTES_KEY_LENGTH None in
  let privateKeyBigInt := bytesToBigInt privateKey in
  _ <- assert ((privateKeyBigInt >? 0) && (privateKeyBigInt <? curve_n curve))
              msgInvalidPrivateKey ;;
  publicKey <- getPublicKey curve privateKey (Some true) ;;
  let masterFingerprint := getFingerprint publicKey in
  Node.fromExtendedKey (Some privateKey) None chainCode
                       (Some masterFingerprint) 0 0 0 (name curve).

(** [deriveChildKey({ path, curve })]: only [path] and [curve] are
    destructured from the arguments. *)
Definition deriveChildKey `{Hashes} `{NodeEnv} `{MnemonicLib}
    (args : DeriveChildKeyArgs) : result SLIP10Node :=
  seed <- mnemonicToSeed (Derivers.path args) englishWordlist ;;
  createBip39KeyFromSeed seed (Derivers.curve args).

End Bip39.

(* ===================================================================== *)
(** ** JavaScript string helpers used by the BIP-32 path parser *)
(* ===================================================================== *)

Definition apostrophe : ascii := ascii_of_nat 39.

(** [s.includes(c)] for a one-character needle. *)
Fixpoint includes (s : string) (c : ascii) : bool :=
  match s with
  | EmptyString => false
  | String x rest => if Ascii.eqb x c then true else includes rest c
  end.

(** [s.split(c)[0]]: the text before the first occurrence of [c], the
    whole string when there is none. *)
Fixpoint splitHead (s : string) (c : ascii) : string :=
  match s with
  | EmptyString => EmptyString
  | String x rest =>
    if Ascii.eqb x c then EmptyString else String x (splitHead rest c)
  end.

Definition isDigit (c : ascii) : bool :=
  let k := Z.of_nat (nat_of_ascii c) in (48 <=? k) && (k <=? 57).

Definition digitValue (c : ascii) : Z := Z.of_nat (nat_of_ascii c) - 48.

Fixpoint allDigits (s : string) : bool :=
  match s with
  | EmptyString => true
  | String x rest => isDigit x && allDigits rest
  end.

(** [/^\d+$/u.test(s)]: one or more ASCII digits and nothing else. *)
Definition testDecimal (s : string) : bool :=
  match s with
  | EmptyString => false
  | String _ _ => allDigits s
  end.

(** The white space [parseInt] skips, restricted to ASCII. *)
Definition isWhiteSpace (c : ascii) : bool :=
  let k := Z.of_nat (nat_of_ascii c) in
  ((9 <=? k) && (k <=? 13)) || (k =? 32).

Fixpoint skipWhiteSpace (s : string) : string :=
  match s with
  | String x rest => if isWhiteSpace x then skipWhiteSpace rest else s
  | EmptyString => s
  end.

(** The longest digit prefix, read in base ten: [None] when the text does
    not start with a digit, otherwise the value read so far. *)
Fixpoint readDigits (s : string) (acc : option Z) : option Z :=
  match s with
  | String x rest =>
    if isDigit x
    then readDigits rest
           (Some (match acc with
                  | Some v => v * 10 + digitValue x
                  | None => digitValue x
                  end))
    else acc
  | EmptyString => acc
  end.

(** [parseInt(s, 10)]: leading white space, an optional sign, then the
    longest digit prefix; [None] is [NaN]. *)
Definition parseInt10 (s : string) : option Z :=
  match skipWhiteSpace s with
  | String x rest =>
    if Ascii.eqb x (ascii_of_nat 45) then option_map Z.opp (readDigits rest None)
    else if Ascii.eqb x (ascii_of_nat 43) then readDigits rest None
    else readDigits (String x rest) None
  | EmptyString => None
  end.

(** Truthiness of an optional object ([!x], [if (x)]). *)
Definition isSome {A : Type} (x : option A) : bool :=
  match x with
  | Some _ => true
  | None => false
  end.


(* ===================================================================== *)
(** ** derivers/bip39.ts: the multipath segment of a mnemonic *)
(* ===================================================================== *)

(** [String.prototype.toLowerCase] and [trim] on strings of ASCII
    characters (the characters of an English BIP-39 mnemonic): the
    letters A-Z are lowered, every other character is kept; the white
    space removed at both ends is the ASCII white space of
    [isWhiteSpace]. *)
Definition isUpper (c : ascii) : bool :=
  let k := Z.of_nat (nat_of_ascii c) in (65 <=? k) && (k <=? 90).

Definition lowerChar (c : ascii) : ascii :=
  if isUpper c then ascii_of_nat (nat_of_ascii c + 32) else c.

Fixpoint toLowerCase (s : string) : string :=
  match s with
  | EmptyString => EmptyString
  | String c rest => String (lowerChar c) (toLowerCase rest)
  end.

Fixpoint trimEnd (s : string) : string :=
  match s with
  | EmptyString => EmptyString
  | String c rest =>
    match trimEnd rest with
    | EmptyString => if isWhiteSpace c then EmptyString else String c EmptyString
    | String x kept => String c (String x kept)
    end
  end.

Definition trim (s : string) : string := trimEnd (skipWhiteSpace s).

(** [bip39MnemonicToMultipath(mnemonic)], the same in both revisions of
    [bip39.ts]: the template [`bip39:${mnemonic.toLowerCase().trim()}`]. *)
Definition bip39MnemonicToMultipath (mnemonic : string) : string :=
  ("bip39:" ++ trim (toLowerCase mnemonic))%string.

(* ===================================================================== *)
(** ** derivers/bip32.ts *)
(* ===================================================================== *)

(** The functions imported from [./shared].  Every argument list follows
    the object literal at the call site, in the order written there.
    [deriveSecretExtension] is awaited by its callers (it asks the curve
    for a public key), so it may fail; the two synchronous helpers are
    byte-level computations. *)
Class Shared : Type := {
  (* { privateKey, childIndex, isHardened, curve } *)
  deriveSecretExtension : bytes -> Z -> bool -> Curve -> result bytes;
  (* { parentPublicKey, childIndex } *)
  derivePublicExtension : bytes -> Z -> bytes;
  (* { chainCode, extension } *)
  generateEntropy : bytes -> bytes -> bytes;
  (* { entropy, privateKey, depth, masterFingerprint, parentFingerprint,
       childIndex, isHardened, curve } *)
  derivePrivateChildKey :
    bytes -> bytes -> Z -> option Z -> Z -> Z -> bool -> Curve ->
    result SLIP10Node;
  (* { entropy, publicKey, depth, masterFingerprint, parentFingerprint,
       childIndex, curve } *)
  derivePublicChildKey :
    bytes -> bytes -> Z -> option Z -> Z -> Z -> Curve -> result SLIP10Node
}.

Module Bip32.

Definition msgPrivateKeyLength : string :=
  "Invalid key: The key must be a 32-byte, non-zero Uint8Array.".
Definition msgPublicKeyLength : string :=
  "Invalid key: The key must be a 65-byte, non-zero Uint8Array.".
Definition msgPathNotString : string :=
  "Invalid path: Must be a string.".
Definition msgCurve : string :=
  "Invalid curve: Only secp256k1 is supported by BIP-32.".
Definition msgNoNode : string :=
  "Invalid parameters: Must specify a node to derive from.".
Definition msgHardened : string :=
  "Invalid parameters: Cannot derive hardened child keys without a private key.".
Definition msgIndex : string :=
  "Invalid BIP-32 index: The index must be a non-negative decimal integer less than 2147483648.".

Section AddressUtilities.

Context `{Hashes}.
(** The [secp256k1] object of [../curves]. *)
Variable secp256k1 : Curve.

(** [publicKeyToEthAddress(key)]. *)
Definition publicKeyToEthAddress (key : bytes) : result bytes :=
  _ <- assert (isValidBytesKey key (publicKeyLength secp256k1))
              msgPublicKeyLength ;;
  Ok (slice (keccak256 (slice key 1 None)) (-20) None).

(** [privateKeyToEthAddress(key)]. *)
Definition privateKeyToEthAddress (key : bytes) : result bytes :=
  _ <- assert (isValidBytesKey key BYTES_KEY_LENGTH) msgPrivateKeyLength ;;
  publicKey <- getPublicKey secp256k1 key (Some false) ;;
  publicKeyToEthAddress publicKey.

End AddressUtilities.

(** [DeriveKeyArgs]: the base arguments together with exactly one of
    [privateKey] and [publicKey]. *)
Inductive ParentKey : Type :=
| PrivateKey (privateKey : bytes)
| PublicKey (publicKey : bytes).

Record DeriveKeyArgs : Type := mkDeriveKeyArgs {
  key : ParentKey;
  entropy : bytes;
  chainCode : bytes;
  childIndex : Z;
  isHardened : bool;
  depth : Z;
  parentFingerprint : Z;
  masterFingerprint : option Z;
  curve : Curve
}.

(** The body of the [try] block of [deriveNode]: one derivation attempt
    at [childIndex] with the entropy of the arguments. *)
Definition attempt `{Shared} (a : DeriveKeyArgs) : result SLIP10Node :=
  match key a with
  | PrivateKey privateKey =>
    derivePrivateChildKey (entropy a) privateKey (depth a)
      (masterFingerprint a) (parentFingerprint a) (childIndex a)
      (isHardened a) (curve a)
  | PublicKey publicKey =>
    derivePublicChildKey (entropy a) publicKey (depth a)
      (masterFingerprint a) (parentFingerprint a) (childIndex a) (curve a)
  end.

(** The arguments of the recursive call in the [catch] block:
    [{ ...args, privateKey | publicKey, entropy: newEntropy }] with
    [childIndex: childIndex + 1]. *)
Definition retryArgs (a : DeriveKeyArgs) (newEntropy : bytes) : DeriveKeyArgs :=
  {| key := key a;
     entropy := newEntropy;
     chainCode := chainCode a;
     childIndex := childIndex a + 1;
     isHardened := isHardened a;
     depth := depth a;
     parentFingerprint := parentFingerprint a;
     masterFingerprint := masterFingerprint a;
     curve := curve a |}.

(** The extension recomputed for an index, on the branch given by the
    parent key. *)
Definition extensionFor `{Shared} (k : ParentKey) (i : Z) (hardened : bool)
    (c : Curve) : result bytes :=
  match k with
  | PrivateKey privateKey => deriveSecretExtension privateKey i hardened c
  | PublicKey publicKey => Ok (derivePublicExtension publicKey i)
  end.

Definition remaining (a : DeriveKeyArgs) : nat :=
  Z.to_nat (BIP_32_HARDENED_OFFSET - childIndex a).

Definition inspect {A : Type} (x : A) : { y : A | x = y } :=
  exist _ x eq_refl.

(** [deriveNode(args)]: try one attempt; on any exception validate
    [childIndex + 1], recompute the extension and the entropy for it and
    recurse. *)
Equations? deriveNode `{Shared} (a : DeriveKeyArgs) : result SLIP10Node
  by wf (remaining a) lt :=
  deriveNode a with attempt a => {
    | Ok nd => Ok nd
    | Err _ with inspect (validateBIP32Index (childIndex a + 1)) => {
      | exist _ (Err e) _ => Err e
      | exist _ (Ok tt) Hvalid with key a => {
        | PrivateKey privateKey
          with deriveSecretExtension privateKey (childIndex a + 1)
                 (isHardened a) (curve a) => {
          | Err e => Err e
          | Ok secretExtension =>
            deriveNode
              (retryArgs a (generateEntropy (chainCode a) secretExtension))
          }
        | PublicKey publicKey =>
          deriveNode
            (retryArgs a
               (generateEntropy (chainCode a)
                  (derivePublicExtension publicKey (childIndex a + 1))))
        }
      }
    }.
Proof.
  all: unfold validateBIP32Index in Hvalid;
    destruct (0 <=? childIndex a + 1) eqn:Hlo;
    destruct (childIndex a + 1 <? BIP_32_HARDENED_OFFSET) eqn:Hhi;
    try discriminate Hvalid;
    apply Z.leb_le in Hlo; apply Z.ltb_lt in Hhi;
    unfold remaining, retryArgs; cbn [childIndex];
    apply Z2Nat.inj_lt; lia.
Qed.

(** Lines 92-103 of [deriveChildKey]: [parseInt(indexPart, 10)] and the
    check of the index part.  The four disjuncts of the source all lead
    to the same [throw]; [NaN] is caught by [!Number.isInteger]. *)
Definition parseIndexPart (indexPart : string) : result Z :=
  match parseInt10 indexPart with
  | None => Err (Error msgIndex)
  | Some childIndex =>
    if negb (testDecimal indexPart)
       || (childIndex <? 0)
       || (childIndex >=? BIP_32_HARDENED_OFFSET)
    then Err (Error msgIndex)
    else Ok childIndex
  end.

(** The object [{ chainCode, childIndex, isHardened, depth,
    parentFingerprint, masterFingerprint, curve }] of line 105, completed
    with the parent key and the entropy at the two call sites. *)
Definition nodeArgs `{NodeEnv} (node : SLIP10Node) (curve : Curve)
    (childIndex : Z) (isHardened : bool) (k : ParentKey) (entropy : bytes)
  : DeriveKeyArgs :=
  {| key := k;
     entropy := entropy;
     chainCode := Node.chainCodeBytes node;
     childIndex := childIndex;
     isHardened := isHardened;
     depth := Node.depth node;
     parentFingerprint := Node.fingerprint node;
     masterFingerprint := Node.masterFingerprint node;
     curve := curve |}.

(** Lines 105-149 of [deriveChildKey]: the first extension and entropy,
    on the private or the public branch, and the call of [deriveNode]. *)
Definition deriveFromNode `{Shared} `{NodeEnv} (node : SLIP10Node)
    (curve : Curve) (childIndex : Z) (isHardened : bool)
  : result SLIP10Node :=
  match Node.privateKeyBytes node with
  | Some privateKey =>
    secretExtension <-
      deriveSecretExtension privateKey childIndex isHardened curve ;;
    let entropy :=
      generateEntropy (Node.chainCodeBytes node) secretExtension in
    deriveNode
      (nodeArgs node curve childIndex isHardened (PrivateKey privateKey)
         entropy)
  | None =>
    let publicExtension :=
      derivePublicExtension (Node.compressedPublicKeyBytes node) childIndex in
    let entropy :=
      generateEntropy (Node.chainCodeBytes node) publicExtension in
    deriveNode
      (nodeArgs node curve childIndex isHardened
         (PublicKey (Node.compressedPublicKeyBytes node)) entropy)
  end.

(** [deriveChildKey({ path, node, curve })]. *)
Definition deriveChildKey `{Shared} `{NodeEnv} (args : DeriveChildKeyArgs)
  : result SLIP10Node :=
  match Derivers.path args with
  | PathBytes _ => Err (AssertionError msgPathNotString)
  | PathString path =>
    _ <- assert (String.eqb (name (Derivers.curve args)) "secp256k1") msgCurve ;;
    match Derivers.node args with
    | None => Err (Error msgNoNode)
    | Some node =>
      let isHardened := includes path apostrophe in
      if isHardened && negb (isSome (Node.privateKeyBytes node))
      then Err (Error msgHardened)
      else
        let indexPart := splitHead path apostrophe in
        childIndex <- parseIndexPart indexPart ;;
        deriveFromNode node (Derivers.curve args) childIndex isHardened
    end
  end.

End Bip32.

(* ===================================================================== *)
(** ** Notions used to state the properties *)
(* ===================================================================== *)

(** The last [n] elements of a list (all of it when it is shorter). *)
Definition lastn {A : Type} (n : nat) (l : list A) : list A :=
  skipn (List.length l - n) l.

(** A key that is not all zero. *)
Definition nonZero (b : bytes) : Prop := exists x, In x b /\ x <> x00.

(** The value of a string of decimal digits. *)
Definition decimalValue (s : string) : Z :=
  fold_left (fun acc c => acc * 10 + digitValue c) (list_ascii_of_string s) 0.

(** The path-segment grammar in the words of the specification: an
    unsigned decimal integer below 2^31, optionally followed by one
    apostrophe. *)
Definition isBip32Segment (s : string) : bool :=
  let digits := splitHead s apostrophe in
  testDecimal digits
  && (decimalValue digits <? BIP_32_HARDENED_OFFSET)
  && (String.eqb s digits || String.eqb s (digits ++ String apostrophe EmptyString)).

Module Search.
Import Bip32.

(** The parent key a node derives with: its private key when it has one,
    its compressed public key otherwise. *)
Definition parentKey (node : SLIP10Node) : ParentKey :=
  match Node.privateKeyBytes node with
  | Some privateKey => PrivateKey privateKey
  | None => PublicKey (Node.compressedPublicKeyBytes node)
  end.

(** The arguments of an attempt at index [j]: those of [a] with the index
    replaced and the given entropy. *)
Definition atIndex (a : DeriveKeyArgs) (j : Z) (newEntropy : bytes)
  : DeriveKeyArgs :=
  {| key := key a;
     entropy := newEntropy;
     chainCode := chainCode a;
     childIndex := j;
     isHardened := isHardened a;
     depth := depth a;
     parentFingerprint := parentFingerprint a;
     masterFingerprint := masterFingerprint a;
     curve := curve a |}.

(** One whole attempt at index [j] from the parent data of [a]: the
    extension and the entropy are computed for [j], then the child key is
    derived. *)
Definition attemptAt `{Shared} (a : DeriveKeyArgs) (j : Z)
  : result SLIP10Node :=
  extension <- extensionFor (key a) j (isHardened a) (curve a) ;;
  attempt (atIndex a j (generateEntropy (chainCode a) extension)).

(** One whole attempt at index [j] from a parent node: what
    [deriveChildKey] runs for the requested index and [deriveNode] for
    every later one. *)
Definition attemptFromNode `{Shared} `{NodeEnv} (node : SLIP10Node)
    (c : Curve) (hardened : bool) (j : Z) : result SLIP10Node :=
  attemptAt (nodeArgs node c 0 hardened (parentKey node) []) j.

(** Modelled from the spec: the postcondition of the single-attempt
    functions [derivePrivateChildKey] and [derivePublicChildKey] of
    [./shared] on the index of the node they build (sections 3 and 4.3
    step 5): the child index, plus the hardened offset for a hardened
    child; a public derivation is never hardened. *)
Definition recordsIndex `{Shared} : Prop :=
  (forall entropy privateKey depth mfp pfp i hardened c nd,
      derivePrivateChildKey entropy privateKey depth mfp pfp i hardened c
      = Ok nd ->
      Node.index nd = i + (if hardened then BIP_32_HARDENED_OFFSET else 0))
  /\ (forall entropy publicKey depth mfp pfp i c nd,
      derivePublicChildKey entropy publicKey depth mfp pfp i c = Ok nd ->
      Node.index nd = i).

End Search.

(** Shapes of strings used to state the normalisation of mnemonics. *)
Fixpoint isAsciiString (s : string) : bool :=
  match s with
  | EmptyString => true
  | String c rest => (Z.of_nat (nat_of_ascii c) <? 128) && isAsciiString rest
  end.

Fixpoint allWhiteSpace (s : string) : bool :=
  match s with
  | EmptyString => true
  | String c rest => isWhiteSpace c && allWhiteSpace rest
  end.

Fixpoint hasUpper (s : string) : bool :=
  match s with
  | EmptyString => false
  | String c rest => isUpper c || hasUpper rest
  end.

Definition startsWithWhiteSpace (s : string) : bool :=
  match s with
  | EmptyString => false
  | String c _ => isWhiteSpace c
  end.

Fixpoint endsWithWhiteSpace (s : string) : bool :=
  match s with
  | EmptyString => false
  | String c EmptyString => isWhiteSpace c
  | String _ rest => endsWithWhiteSpace rest
  end.

(** The upper-case spelling of a string, to state that case is ignored. *)
Definition upperChar (c : ascii) : ascii :=
  let k := Z.of_nat (nat_of_ascii c) in
  if (97 <=? k) && (k <=? 122) then ascii_of_nat (nat_of_ascii c - 32) else c.

Fixpoint toUpperCase (s : string) : string :=
  match s with
  | EmptyString => EmptyString
  | String c rest => String (upperChar c) (toUpperCase rest)
  end.

(* ===================================================================== *)
(** ** Concrete providers used to run the definitions *)
(* ===================================================================== *)

Module Fixture.

Definition hashes : Hashes :=
  {| hmac_sha512 := fun _ message => firstn 64 (message ++ repeat x01 64);
     keccak256 := fun message => firstn 32 (message ++ repeat x03 32) |}.

Definition secp256k1 : Curve :=
  {| name := "secp256k1";
     curve_n := 2 ^ 256 - 1;
     secret := [x42; x69; x74];
     publicKeyLength := 65;
     getPublicKey := fun sk compressed =>
       match compressed with
       | Some true => Ok (x02 :: firstn 32 (sk ++ repeat x07 32))
       | _ => Ok (x04 :: firstn 64 (sk ++ repeat x07 64))
       end |}.

Definition env : NodeEnv :=
  {| getFingerprint := fun pk => bytesToBigInt (firstn 4 pk);
     getCurveByName := fun nm =>
       if String.eqb nm "secp256k1" then Some secp256k1 else None |}.

Definition mnemonics : MnemonicLib :=
  {| englishWordlist := [];
     mnemonicToSeed := fun p _ =>
       match p with
       | PathString s => Ok (map byte_of_ascii (list_ascii_of_string s))
       | PathBytes b => Ok b
       end;
     mnemonicToSeedSync := fun s =>
       Ok (map byte_of_ascii (list_ascii_of_string s)) |}.

(** A parent with a private key and a public-only parent. *)
Definition parent : SLIP10Node :=
  Node.mkNode 0 (Some 7) 0 0 (repeat x05 32) (Some (repeat x09 32))
    (x02 :: repeat x07 32) "secp256k1".

Definition publicParent : SLIP10Node :=
  Node.mkNode 0 (Some 7) 0 0 (repeat x05 32) None
    (x02 :: repeat x07 32) "secp256k1".

Definition child (entropy : bytes) (depth : Z) (mfp : option Z) (pfp i : Z)
  : SLIP10Node :=
  Node.mkNode (depth + 1) mfp pfp i (skipn 32 entropy)
    (Some (firstn 32 entropy)) (x02 :: repeat x07 32) "secp256k1".

Definition msgInvalidScalar : string :=
  "Invalid private key: The derived key is not a valid scalar.".
Definition msgProvider : string :=
  "The cryptography provider is not available.".

(** Entropy is the extension itself; the extension ends with the index.
    The candidate key is invalid exactly at the indices in [bad], where
    the attempt fails with the error [failure]. *)
Definition shared (bad : Z -> bool) (failure : error) : Shared :=
  {| deriveSecretExtension := fun sk i hardened _ =>
       Ok (sk ++ [if hardened then x01 else x00; byte_of_ascii (ascii_of_nat (Z.to_nat (i mod 256)))]);
     derivePublicExtension := fun pk i =>
       pk ++ [byte_of_ascii (ascii_of_nat (Z.to_nat (i mod 256)))];
     generateEntropy := fun chainCode extension => chainCode ++ extension;
     derivePrivateChildKey := fun entropy _ depth mfp pfp i hardened _ =>
       if bad i then Err failure
       else Ok (child entropy depth mfp pfp
                  (i + (if hardened then BIP_32_HARDENED_OFFSET else 0)));
     derivePublicChildKey := fun entropy _ depth mfp pfp i _ =>
       if bad i then Err failure
       else Ok (child entropy depth mfp pfp i) |}.

(** The two kinds of candidate failure used below: an invalid scalar at
    the indices below 2, and a provider failure at index 0. *)
Definition invalidBelow2 : Shared :=
  shared (fun i => i <? 2) (Error msgInvalidScalar).

Definition providerDownAt0 : Shared :=
  shared (fun i => i =? 0) (Error msgProvider).

Definition alwaysValid : Shared :=
  shared (fun _ => false) (Error msgInvalidScalar).

Definition neverValid : Shared :=
  shared (fun _ => true) (Error msgInvalidScalar).

(** A curve whose order is too small for any HMAC output. *)
Definition smallOrder : Curve :=
  {| name := "secp256k1";
     curve_n := 2;
     secret := secret secp256k1;
     publicKeyLength := 65;
     getPublicKey := getPublicKey secp256k1 |}.

(** A node of another curve with the key material of [parent]. *)
Definition foreignParent : SLIP10Node :=
  Node.mkNode 0 (Some 7) 99 5 (repeat x05 32) (Some (repeat x09 32))
    (x02 :: repeat x07 32) "ed25519".

(** The public branch of [alwaysValid] with a private branch that is out
    of order. *)
Definition privateBranchDown : Shared :=
  {| deriveSecretExtension := fun _ _ _ _ => Err (Error msgProvider);
     derivePublicExtension := @derivePublicExtension alwaysValid;
     generateEntropy := @generateEntropy alwaysValid;
     derivePrivateChildKey := fun _ _ _ _ _ _ _ _ => Err (Error msgProvider);
     derivePublicChildKey := @derivePublicChildKey alwaysValid |}.

(** A [deriveChildKey] request on the fixture curve. *)
Definition request (p : string) (nd : option SLIP10Node)
    (net : option Network) : DeriveChildKeyArgs :=
  Derivers.mkArgs (PathString p) secp256k1 nd net.

(** The arguments of the first [deriveNode] call for the child 0 of
    [parent], hardened or not. *)
Definition firstArgsOf (hardened : bool) : Bip32.DeriveKeyArgs :=
  @Bip32.nodeArgs env parent secp256k1 0 hardened
    (Bip32.PrivateKey (repeat x09 32))
    (repeat x05 32 ++ repeat x09 32
       ++ [if hardened then x01 else x00; x00]).

Definition firstArgs : Bip32.DeriveKeyArgs := firstArgsOf true.

End Fixture.

(* ===================================================================== *)
(** * Properties *)
(* ===================================================================== *)

(** ** The result monad *)

Lemma bind_ok {A B : Type} (r : result A) (k : A -> result B) (b : B) :
  bind r k = Ok b -> exists a, r = Ok a /\ k a = Ok b.
Proof.
  destruct r as [a|e]; simpl; intros Hb; [eauto | discriminate].
Qed.

Lemma assert_ok (cond : bool) (msg : string) (u : unit) :
  assert cond msg = Ok u -> cond = true.
Proof.
  unfold assert. destruct cond; [reflexivity | discriminate].
Qed.

(** ** Slices *)

Section SliceFacts.

Context {A : Type}.
Implicit Types l : list A.

Lemma firstn_min_length l (n : nat) :
  firstn (Nat.min n (List.length l)) l = firstn n l.
Proof.
  destruct (Nat.le_ge_cases n (List.length l)) as [Hle|Hge].
  - now rewrite Nat.min_l.
  - rewrite Nat.min_r by assumption.
    now rewrite firstn_all, firstn_all2.
Qed.

Lemma slice_prefix l (n : Z) :
  0 <= n -> slice l 0 (Some n) = firstn (Z.to_nat n) l.
Proof.
  intros Hn. unfold slice, clampIndex; cbv zeta.
  assert (Hn' : (n <? 0) = false) by (apply Z.ltb_ge; lia).
  rewrite Hn'. simpl (0 <? 0).
  cbv iota. rewrite (Z.min_l 0) by lia. simpl skipn.
  rewrite Z.sub_0_r, Z2Nat.inj_min, Nat2Z.id.
  apply firstn_min_length.
Qed.

Lemma slice_suffix l (n : Z) :
  0 <= n -> slice l n None = skipn (Z.to_nat n) l.
Proof.
  intros Hn. unfold slice, clampIndex; cbv zeta.
  assert (Hn' : (n <? 0) = false) by (apply Z.ltb_ge; lia).
  rewrite Hn'.
  destruct (Z.le_ge_cases n (Z.of_nat (List.length l))) as [Hle|Hge].
  - rewrite Z.min_l by lia.
    apply firstn_all2. rewrite length_skipn. lia.
  - rewrite Z.min_r by lia. rewrite Nat2Z.id, Z.sub_diag.
    simpl firstn. symmetry. apply skipn_all2. lia.
Qed.

Lemma slice_window l (a b : Z) :
  0 <= a <= b ->
  slice l a (Some b) = firstn (Z.to_nat (b - a)) (skipn (Z.to_nat a) l).
Proof.
  intros [Ha Hb]. unfold slice, clampIndex; cbv zeta.
  assert (Ha' : (a <? 0) = false) by (apply Z.ltb_ge; lia).
  assert (Hb' : (b <? 0) = false) by (apply Z.ltb_ge; lia).
  rewrite Ha', Hb'.
  set (len := Z.of_nat (List.length l)).
  destruct (Z.le_ge_cases a len) as [Hal|Hal].
  - rewrite (Z.min_l a) by lia.
    destruct (Z.le_ge_cases b len) as [Hbl|Hbl].
    + now rewrite Z.min_l by lia.
    + rewrite Z.min_r by lia.
      rewrite !firstn_all2; try reflexivity; rewrite length_skipn; subst len; lia.
  - rewrite (Z.min_r a) by lia. rewrite (Z.min_r b) by lia.
    rewrite Z.sub_diag. simpl firstn.
    rewrite (skipn_all2 (n := Z.to_nat a)) by (subst len; lia).
    now rewrite firstn_nil.
Qed.

Lemma slice_last l (n : nat) :
  slice l (- Z.of_nat (S n)) None = lastn (S n) l.
Proof.
  unfold slice, clampIndex, lastn; cbv zeta.
  assert (Hneg : (- Z.of_nat (S n) <? 0) = true) by (apply Z.ltb_lt; lia).
  rewrite Hneg.
  set (len := List.length l).
  assert (Hfrom : Z.to_nat (Z.max (Z.of_nat len + - Z.of_nat (S n)) 0)
                  = (len - S n)%nat) by lia.
  rewrite Hfrom.
  apply firstn_all2. rewrite length_skipn. fold len. lia.
Qed.

Lemma slice_tail l : slice l 1 None = tl l.
Proof.
  rewrite slice_suffix by lia. destruct l; reflexivity.
Qed.

End SliceFacts.

(** ** SLIP10Node construction *)

Section NodeFacts.

Context `{NodeEnv}.

(** A node built from a private key alone stores the arguments as given
    and the compressed public key of the registered curve. *)
Lemma fromExtendedKey_private_inv
    (sk cc : bytes) (mfp : option Z) (d pfp i : Z) (nm : string)
    (nd : SLIP10Node) :
  Node.fromExtendedKey (Some sk) None cc mfp d pfp i nm = Ok nd ->
  exists c pk,
    getCurveByName nm = Some c
    /\ getPublicKey c sk (Some true) = Ok pk
    /\ nd = Node.mkNode d mfp pfp i cc (Some sk) pk nm.
Proof.
  unfold Node.fromExtendedKey.
  destruct (getCurveByName nm) as [c|]; [|discriminate].
  intros Hnd.
  apply bind_ok in Hnd as [[] [_ Hnd]].
  apply bind_ok in Hnd as [[] [_ Hnd]].
  apply bind_ok in Hnd as [pk [Hpk Hnd]].
  exists c, pk. repeat split; [assumption | congruence].
Qed.

Lemma fromExtendedKey_private_ok
    (c : Curve) (sk cc pk : bytes) (mfp : option Z) (d pfp i : Z)
    (nm : string) :
  getCurveByName nm = Some c ->
  List.length cc = 32%nat ->
  List.length sk = 32%nat ->
  0 < bytesToBigInt sk < curve_n c ->
  getPublicKey c sk (Some true) = Ok pk ->
  Node.fromExtendedKey (Some sk) None cc mfp d pfp i nm
  = Ok (Node.mkNode d mfp pfp i cc (Some sk) pk nm).
Proof.
  intros Hc Hcc Hsk [Hlo Hhi] Hpk.
  unfold Node.fromExtendedKey. rewrite Hc, Hcc, Hsk.
  replace (0 <? bytesToBigInt sk) with true by (symmetry; apply Z.ltb_lt; lia).
  replace (bytesToBigInt sk <? curve_n c) with true
    by (symmetry; apply Z.ltb_lt; lia).
  simpl. rewrite Hpk. reflexivity.
Qed.

End NodeFacts.

(** ** BIP-39: the seed-to-master-key transform *)

Section Bip39Facts.

Context `{Hashes} `{NodeEnv}.

Lemma lastn_32_of_64 (key : bytes) :
  List.length key = 64%nat -> lastn 32 key = skipn 32 key.
Proof.
  intros Hlen. unfold lastn. now rewrite Hlen.
Qed.

(** What a successful run of the transform went through. *)
Lemma createBip39KeyFromSeed_inv (seed : bytes) (curve : Curve)
    (nd : SLIP10Node) :
  Bip39.createBip39KeyFromSeed seed curve = Ok nd ->
  let key := hmac_sha512 (secret curve) seed in
  0 < bytesToBigInt (firstn 32 key) < curve_n curve
  /\ exists pk pk' c,
      getPublicKey curve (firstn 32 key) (Some true) = Ok pk
      /\ getCurveByName (name curve) = Some c
      /\ getPublicKey c (firstn 32 key) (Some true) = Ok pk'
      /\ nd = Node.mkNode 0 (Some (getFingerprint pk)) 0 0 (skipn 32 key)
                (Some (firstn 32 key)) pk' (name curve).
Proof.
  unfold Bip39.createBip39KeyFromSeed, BYTES_KEY_LENGTH.
  rewrite slice_prefix, slice_suffix by lia.
  change (Z.to_nat 32) with 32%nat.
  intros Hnd. cbv zeta in *.
  set (key := hmac_sha512 (secret curve) seed) in *.
  apply bind_ok in Hnd as [[] [Hrange Hnd]].
  apply assert_ok in Hrange. apply andb_true_iff in Hrange as [Hlo Hhi].
  apply Z.gtb_lt in Hlo. apply Z.ltb_lt in Hhi.
  apply bind_ok in Hnd as [pk [Hpk Hnd]].
  apply fromExtendedKey_private_inv in Hnd as (c & pk' & Hc & Hpk' & ->).
  split; [lia|]. exists pk, pk', c. auto.
Qed.

(** C4. For every seed and curve, [createBip39KeyFromSeed] computes
    HMAC-SHA512 keyed with the curve secret over the seed, keeps its
    first 32 bytes as private key and its last 32 bytes as chain code,
    and fails at once with the invalid-private-key assertion (there is
    no retry) whenever the private key, read as an integer, is not
    strictly between 0 and the curve order.  HMAC-SHA512 produces 64
    bytes. *)
Theorem createBip39KeyFromSeed_hmac_split
    (Hlen : forall k m, List.length (hmac_sha512 k m) = 64%nat)
    (seed : bytes) (curve : Curve) :
  let key := hmac_sha512 (secret curve) seed in
  (~ 0 < bytesToBigInt (firstn 32 key) < curve_n curve ->
   Bip39.createBip39KeyFromSeed seed curve
   = Err (AssertionError Bip39.msgInvalidPrivateKey)
   /\ errorKind (AssertionError Bip39.msgInvalidPrivateKey) = InvalidPrivateKey)
  /\ (forall nd,
       Bip39.createBip39KeyFromSeed seed curve = Ok nd ->
       0 < bytesToBigInt (firstn 32 key) < curve_n curve
       /\ Node.privateKeyBytes nd = Some (firstn 32 key)
       /\ Node.chainCodeBytes nd = lastn 32 key).
Proof.
  intros key. split.
  - intros Hbad. split; [|reflexivity].
    unfold Bip39.createBip39KeyFromSeed, BYTES_KEY_LENGTH.
    rewrite slice_prefix by lia. change (Z.to_nat 32) with 32%nat.
    fold key.
    destruct (bytesToBigInt (firstn 32 key) >? 0) eqn:Hlo;
      destruct (bytesToBigInt (firstn 32 key) <? curve_n curve) eqn:Hhi;
      try reflexivity.
    exfalso. apply Hbad.
    apply Z.gtb_lt in Hlo. apply Z.ltb_lt in Hhi. lia.
  - intros nd Hnd.
    apply createBip39KeyFromSeed_inv in Hnd
      as (Hrange & pk & pk' & c & _ & _ & _ & ->).
    fold key in Hrange |- *. cbn [Node.privateKeyBytes Node.chainCodeBytes].
    rewrite lastn_32_of_64 by apply Hlen. auto.
Qed.

(** C5. Every node returned by the BIP-39 transform is a root: depth 0,
    parent fingerprint 0, index 0, and, the curve being the registered
    curve of its name, a master fingerprint equal to the fingerprint of
    the node's own public key. *)
Theorem createBip39KeyFromSeed_root
    (seed : bytes) (curve : Curve) (nd : SLIP10Node) :
  Bip39.createBip39KeyFromSeed seed curve = Ok nd ->
  Node.depth nd = 0
  /\ Node.parentFingerprint nd = 0
  /\ Node.index nd = 0
  /\ (getCurveByName (name curve) = Some curve ->
      Node.masterFingerprint nd = Some (Node.fingerprint nd)).
Proof.
  intros Hnd.
  apply createBip39KeyFromSeed_inv in Hnd
    as (_ & pk & pk' & c & Hpk & Hc & Hpk' & ->).
  cbn. repeat split.
  intros Hreg. rewrite Hreg in Hc. injection Hc as <-.
  rewrite Hpk in Hpk'. injection Hpk' as <-. reflexivity.
Qed.

(** C9. The tuple-returning and the node-returning revisions of
    [createBip39KeyFromSeed] agree on the private key and on the chain
    code: whenever both return, the bytes are identical, and for a
    private key strictly between 0 and the curve order both do return
    (the curve being registered and answering the two public-key
    requests). *)
Theorem createBip39KeyFromSeed_revisions_agree
    (Hlen : forall k m, List.length (hmac_sha512 k m) = 64%nat)
    (seed : bytes) (curve : Curve) :
  let key := hmac_sha512 (secret curve) seed in
  0 < bytesToBigInt (firstn 32 key) < curve_n curve ->
  (forall sk pk cc nd,
      Bip39Tuple.createBip39KeyFromSeed seed curve = Ok (sk, pk, cc) ->
      Bip39.createBip39KeyFromSeed seed curve = Ok nd ->
      Node.privateKeyBytes nd = Some sk /\ Node.chainCodeBytes nd = cc)
  /\ (forall pk pkc,
      getCurveByName (name curve) = Some curve ->
      getPublicKey curve (firstn 32 key) None = Ok pk ->
      getPublicKey curve (firstn 32 key) (Some true) = Ok pkc ->
      exists nd,
        Bip39Tuple.createBip39KeyFromSeed seed curve
        = Ok (firstn 32 key, pk, skipn 32 key)
        /\ Bip39.createBip39KeyFromSeed seed curve = Ok nd
        /\ Node.privateKeyBytes nd = Some (firstn 32 key)
        /\ Node.chainCodeBytes nd = skipn 32 key).
Proof.
  intros key Hrange.
  assert (Htuple : slice key 32 (Some 64) = skipn 32 key).
  { rewrite slice_window by lia. apply firstn_all2.
    rewrite length_skipn. unfold key. rewrite Hlen. simpl. lia. }
  split.
  - intros sk pk cc nd Hold Hnew.
    unfold Bip39Tuple.createBip39KeyFromSeed in Hold. fold key in Hold.
    rewrite slice_prefix in Hold by lia. rewrite Htuple in Hold.
    apply bind_ok in Hold as [pk0 [_ Hold]]. injection Hold as <- <- <-.
    apply createBip39KeyFromSeed_inv in Hnew
      as (_ & pk1 & pk' & c & _ & _ & _ & ->).
    split; reflexivity.
  - intros pk pkc Hreg Hpk Hpkc.
    exists (Node.mkNode 0 (Some (getFingerprint pkc)) 0 0 (skipn 32 key)
              (Some (firstn 32 key)) pkc (name curve)).
    split; [|split; [|split; reflexivity]].
    + unfold Bip39Tuple.createBip39KeyFromSeed. fold key.
      rewrite slice_prefix by lia. rewrite Htuple.
      change (Z.to_nat 32) with 32%nat. rewrite Hpk. reflexivity.
    + unfold Bip39.createBip39KeyFromSeed, BYTES_KEY_LENGTH. fold key.
      rewrite slice_prefix, slice_suffix by lia.
      change (Z.to_nat 32) with 32%nat.
      replace (bytesToBigInt (firstn 32 key) >? 0) with true
        by (symmetry; apply Z.gtb_lt; lia).
      replace (bytesToBigInt (firstn 32 key) <? curve_n curve) with true
        by (symmetry; apply Z.ltb_lt; lia).
      cbn [andb assert bind]. rewrite Hpkc. cbn [bind].
      apply (fromExtendedKey_private_ok curve); auto.
      * rewrite length_skipn. unfold key. rewrite Hlen. reflexivity.
      * rewrite length_firstn. unfold key. rewrite Hlen. reflexivity.
Qed.

(** C10. The BIP-39 strategy reads only the path and the curve of its
    arguments: two argument records with the same path and curve give
    the same result, whatever their [node] and [network] fields. *)
Theorem bip39_deriveChildKey_ignores_parent `{MnemonicLib}
    (args1 args2 : DeriveChildKeyArgs) :
  Derivers.path args1 = Derivers.path args2 ->
  Derivers.curve args1 = Derivers.curve args2 ->
  Bip39.deriveChildKey args1 = Bip39.deriveChildKey args2.
Proof.
  intros Hpath Hcurve. unfold Bip39.deriveChildKey.
  now rewrite Hpath, Hcurve.
Qed.

End Bip39Facts.

(** ** Ethereum address helpers *)

Lemma isValidBytesKey_spec (b : bytes) (n : Z) :
  isValidBytesKey b n = true <-> Z.of_nat (List.length b) = n /\ nonZero b.
Proof.
  unfold isValidBytesKey, nonZero.
  rewrite andb_true_iff, Z.eqb_eq, existsb_exists.
  split; intros [Hlen [x [Hin Hx]]]; (split; [assumption | exists x; split; [assumption|]]).
  - intros ->. discriminate Hx.
  - destruct (Byte.eqb x x00) eqn:Heq; [|reflexivity].
    apply Byte.byte_dec_bl in Heq. contradiction.
Qed.

Lemma isValidBytesKey_false (b : bytes) (n : Z) :
  ~ (Z.of_nat (List.length b) = n /\ nonZero b) -> isValidBytesKey b n = false.
Proof.
  intros Hno. destruct (isValidBytesKey b n) eqn:Hv; [|reflexivity].
  apply isValidBytesKey_spec in Hv. contradiction.
Qed.

Section AddressFacts.

Context `{Hashes}.
Variable secp256k1 : Curve.
Hypothesis secp256k1_publicKeyLength : publicKeyLength secp256k1 = 65.

Lemma publicKeyToEthAddress_valid (key : bytes) :
  Z.of_nat (List.length key) = 65 -> nonZero key ->
  Bip32.publicKeyToEthAddress secp256k1 key
  = Ok (lastn 20 (keccak256 (tl key))).
Proof.
  intros Hlen Hnz. unfold Bip32.publicKeyToEthAddress.
  rewrite secp256k1_publicKeyLength.
  rewrite (proj2 (isValidBytesKey_spec key 65)) by auto.
  cbn [assert bind]. rewrite slice_tail.
  change (-20) with (- Z.of_nat 20). now rewrite slice_last.
Qed.

Lemma publicKeyToEthAddress_invalid (key : bytes) :
  ~ (Z.of_nat (List.length key) = 65 /\ nonZero key) ->
  Bip32.publicKeyToEthAddress secp256k1 key
  = Err (AssertionError Bip32.msgPublicKeyLength).
Proof.
  intros Hno. unfold Bip32.publicKeyToEthAddress.
  rewrite secp256k1_publicKeyLength.
  now rewrite isValidBytesKey_false.
Qed.

Lemma publicKeyToEthAddress_inv (key addr : bytes) :
  Bip32.publicKeyToEthAddress secp256k1 key = Ok addr ->
  Z.of_nat (List.length key) = 65 /\ nonZero key
  /\ addr = lastn 20 (keccak256 (tl key)).
Proof.
  intros Hok.
  destruct (isValidBytesKey key 65) eqn:Hv.
  - apply isValidBytesKey_spec in Hv as [Hlen Hnz].
    rewrite publicKeyToEthAddress_valid in Hok by assumption.
    injection Hok as <-. auto.
  - rewrite publicKeyToEthAddress_invalid in Hok; [discriminate|].
    intros Hyes. apply isValidBytesKey_spec in Hyes. congruence.
Qed.

(** C8. [privateKeyToEthAddress] requires a 32-byte non-zero key (any
    other input, a 31-byte one in particular, fails with the validation
    assertion) and returns the last 20 bytes of the Keccak-256 hash of
    the uncompressed secp256k1 public key without its leading format
    byte; [publicKeyToEthAddress] requires a 65-byte non-zero key and
    applies the same strip, hash and truncation. *)
Theorem eth_address_helpers :
  (forall key addr,
      Bip32.privateKeyToEthAddress secp256k1 key = Ok addr <->
      Z.of_nat (List.length key) = 32 /\ nonZero key
      /\ exists pk,
          getPublicKey secp256k1 key (Some false) = Ok pk
          /\ Z.of_nat (List.length pk) = 65 /\ nonZero pk
          /\ addr = lastn 20 (keccak256 (tl pk)))
  /\ (forall key,
      ~ (Z.of_nat (List.length key) = 32 /\ nonZero key) ->
      Bip32.privateKeyToEthAddress secp256k1 key
      = Err (AssertionError Bip32.msgPrivateKeyLength))
  /\ (forall key,
      List.length key = 31%nat ->
      exists e, Bip32.privateKeyToEthAddress secp256k1 key = Err e
                /\ errorKind e = InvalidKey)
  /\ (forall key addr,
      Bip32.publicKeyToEthAddress secp256k1 key = Ok addr <->
      Z.of_nat (List.length key) = 65 /\ nonZero key
      /\ addr = lastn 20 (keccak256 (tl key)))
  /\ (forall key,
      ~ (Z.of_nat (List.length key) = 65 /\ nonZero key) ->
      Bip32.publicKeyToEthAddress secp256k1 key
      = Err (AssertionError Bip32.msgPublicKeyLength)).
Proof.
  assert (Hbad : forall key,
             ~ (Z.of_nat (List.length key) = 32 /\ nonZero key) ->
             Bip32.privateKeyToEthAddress secp256k1 key
             = Err (AssertionError Bip32.msgPrivateKeyLength)).
  { intros key Hno. unfold Bip32.privateKeyToEthAddress, BYTES_KEY_LENGTH.
    now rewrite isValidBytesKey_false. }
  split; [|split; [exact Hbad|split; [|split]]].
  - intros key addr. split.
    + intros Hok.
      destruct (isValidBytesKey key 32) eqn:Hv.
      * apply isValidBytesKey_spec in Hv as [Hlen Hnz].
        unfold Bip32.privateKeyToEthAddress, BYTES_KEY_LENGTH in Hok.
        rewrite (proj2 (isValidBytesKey_spec key 32)) in Hok by auto.
        cbn [assert bind] in Hok.
        apply bind_ok in Hok as [pk [Hpk Hok]].
        apply publicKeyToEthAddress_inv in Hok as (Hl & Hn & ->).
        repeat split; try assumption. exists pk. auto.
      * rewrite Hbad in Hok; [discriminate|].
        intros Hyes. apply isValidBytesKey_spec in Hyes. congruence.
    + intros (Hlen & Hnz & pk & Hpk & Hl & Hn & ->).
      unfold Bip32.privateKeyToEthAddress, BYTES_KEY_LENGTH.
      rewrite (proj2 (isValidBytesKey_spec key 32)) by auto.
      cbn [assert bind]. rewrite Hpk. cbn [bind].
      now apply publicKeyToEthAddress_valid.
  - intros key Hlen. eexists. split.
    + apply Hbad. intros [Hl _]. lia.
    + reflexivity.
  - intros key addr. split.
    + apply publicKeyToEthAddress_inv.
    + intros (Hl & Hn & ->). now apply publicKeyToEthAddress_valid.
  - apply publicKeyToEthAddress_invalid.
Qed.

End AddressFacts.

(** ** The BIP-32 path segment parser *)

Section ParserFacts.

Let step (acc : Z) (c : ascii) : Z := acc * 10 + digitValue c.

Lemma isDigit_bounds (c : ascii) :
  isDigit c = true -> 48 <= Z.of_nat (nat_of_ascii c) <= 57.
Proof.
  unfold isDigit. cbv zeta. rewrite andb_true_iff, !Z.leb_le. tauto.
Qed.

Lemma isDigit_not_white (c : ascii) :
  isDigit c = true -> isWhiteSpace c = false.
Proof.
  intros Hd. apply isDigit_bounds in Hd. unfold isWhiteSpace. cbv zeta.
  apply orb_false_iff. split.
  - apply andb_false_iff. right. apply Z.leb_gt. lia.
  - apply Z.eqb_neq. lia.
Qed.

Lemma isDigit_not_char (c : ascii) (k : nat) :
  isDigit c = true -> (k < 48)%nat -> Ascii.eqb c (ascii_of_nat k) = false.
Proof.
  intros Hd Hk. apply isDigit_bounds in Hd.
  destruct (Ascii.eqb c (ascii_of_nat k)) eqn:Heq; [|reflexivity].
  apply Ascii.eqb_eq in Heq. subst c.
  rewrite nat_ascii_embedding in Hd by lia. lia.
Qed.

Lemma readDigits_all (s : string) (v : Z) :
  allDigits s = true ->
  readDigits s (Some v) = Some (fold_left step (list_ascii_of_string s) v).
Proof.
  revert v. induction s as [|c s IH]; intros v Hs; [reflexivity|].
  simpl in Hs. apply andb_true_iff in Hs as [Hc Hs].
  simpl. rewrite Hc. now rewrite IH.
Qed.

Lemma fold_digits_nonneg (s : string) (v : Z) :
  allDigits s = true -> 0 <= v ->
  0 <= fold_left step (list_ascii_of_string s) v.
Proof.
  revert v. induction s as [|c s IH]; intros v Hs Hv; [assumption|].
  simpl in Hs. apply andb_true_iff in Hs as [Hc Hs].
  simpl. apply IH; [assumption|].
  apply isDigit_bounds in Hc. unfold step, digitValue. lia.
Qed.

(** On a string of digits [parseInt] reads the whole string. *)
Lemma parseInt10_decimal (s : string) :
  testDecimal s = true ->
  parseInt10 s = Some (decimalValue s) /\ 0 <= decimalValue s.
Proof.
  destruct s as [|c s]; [discriminate|].
  intros Hs. split.
  - pose proof Hs as Hall. simpl in Hall.
    apply andb_true_iff in Hall as [Hc Hrest].
    unfold parseInt10. simpl skipWhiteSpace.
    rewrite (isDigit_not_white c Hc).
    rewrite (isDigit_not_char c 45 Hc), (isDigit_not_char c 43 Hc) by lia.
    simpl. rewrite Hc. rewrite readDigits_all by assumption.
    unfold decimalValue. simpl. reflexivity.
  - unfold decimalValue. apply fold_digits_nonneg; [exact Hs | lia].
Qed.

(** The index part is accepted exactly when it is a non-empty string of
    decimal digits whose value is below 2^31. *)
Lemma parseIndexPart_spec (part : string) :
  (testDecimal part = true /\ decimalValue part < BIP_32_HARDENED_OFFSET ->
   Bip32.parseIndexPart part = Ok (decimalValue part))
  /\ (~ (testDecimal part = true
         /\ decimalValue part < BIP_32_HARDENED_OFFSET) ->
      Bip32.parseIndexPart part = Err (Error Bip32.msgIndex)).
Proof.
  unfold Bip32.parseIndexPart.
  destruct (testDecimal part) eqn:Ht.
  - destruct (parseInt10_decimal part Ht) as [-> Hpos].
    replace (decimalValue part <? 0) with false
      by (symmetry; apply Z.ltb_ge; lia).
    cbn [negb orb].
    destruct (decimalValue part >=? BIP_32_HARDENED_OFFSET) eqn:Hge.
    + split; [|reflexivity].
      intros [_ Hlt]. apply Z.geb_le in Hge. lia.
    + split; [reflexivity|].
      intros Hno. exfalso. apply Hno. split; [reflexivity|].
      rewrite Z.geb_leb in Hge. apply Z.leb_gt in Hge. lia.
  - split; [intros [Hyes _]; discriminate|].
    intros _. destruct (parseInt10 part); reflexivity.
Qed.

End ParserFacts.

(** ** BIP-32: the retry loop of [deriveNode] *)

Section DeriveNodeFacts.

Import Bip32 Search.
Context `{Shared}.

(** [deriveNode] in the shape of its source: the result of the attempt,
    or, on any exception, the validation of the next index, the new
    extension and the recursive call. *)
Lemma deriveNode_eq (a : DeriveKeyArgs) :
  deriveNode a =
  match attempt a with
  | Ok nd => Ok nd
  | Err _ =>
    _ <- validateBIP32Index (childIndex a + 1) ;;
    extension <-
      extensionFor (key a) (childIndex a + 1) (isHardened a) (curve a) ;;
    deriveNode (retryArgs a (generateEntropy (chainCode a) extension))
  end.
Proof.
  funelim (deriveNode a); clear Heqcall;
    repeat match goal with
           | Hq : attempt _ = _ |- _ => rewrite Hq
           | Hq : validateBIP32Index _ = _ |- _ => rewrite Hq
           | Hq : key _ = _ |- _ => rewrite Hq
           end;
    cbn [bind extensionFor];
    repeat match goal with
           | Hq : deriveSecretExtension _ _ _ _ = _ |- _ => rewrite Hq
           end;
    reflexivity.
Qed.

Lemma validateBIP32Index_valid (i : Z) :
  0 <= i < BIP_32_HARDENED_OFFSET -> validateBIP32Index i = Ok tt.
Proof.
  intros [Hlo Hhi]. unfold validateBIP32Index.
  apply Z.leb_le in Hlo. apply Z.ltb_lt in Hhi. now rewrite Hlo, Hhi.
Qed.

Lemma validateBIP32Index_invalid (i : Z) :
  ~ 0 <= i < BIP_32_HARDENED_OFFSET ->
  validateBIP32Index i = Err (Error msgNoValidChild).
Proof.
  intros Hno. unfold validateBIP32Index.
  destruct (0 <=? i) eqn:Hlo; destruct (i <? BIP_32_HARDENED_OFFSET) eqn:Hhi;
    try reflexivity.
  apply Z.leb_le in Hlo. apply Z.ltb_lt in Hhi. lia.
Qed.

Lemma validateBIP32Index_inv (i : Z) (u : unit) :
  validateBIP32Index i = Ok u -> 0 <= i < BIP_32_HARDENED_OFFSET.
Proof.
  intros Hok.
  destruct (Z.le_gt_cases 0 i) as [Hlo|Hlo];
    destruct (Z.lt_ge_cases i BIP_32_HARDENED_OFFSET) as [Hhi|Hhi];
    try (split; assumption);
    rewrite validateBIP32Index_invalid in Hok by lia; discriminate.
Qed.

Lemma deriveNode_success (a : DeriveKeyArgs) (nd : SLIP10Node) :
  attempt a = Ok nd -> deriveNode a = Ok nd.
Proof.
  intros Hok. now rewrite deriveNode_eq, Hok.
Qed.

Lemma attemptAt_retryArgs (a : DeriveKeyArgs) (newEntropy : bytes) (k : Z) :
  attemptAt (retryArgs a newEntropy) k = attemptAt a k.
Proof. reflexivity. Qed.

Lemma attemptAt_next (a : DeriveKeyArgs) (extension : bytes) :
  extensionFor (key a) (childIndex a + 1) (isHardened a) (curve a)
  = Ok extension ->
  attemptAt a (childIndex a + 1)
  = attempt (retryArgs a (generateEntropy (chainCode a) extension)).
Proof.
  intros Hext. unfold attemptAt. rewrite Hext. reflexivity.
Qed.

(** C1. When the attempt at [childIndex] fails, [deriveNode] does not
    return that failure.  If [childIndex + 1] reaches the hardened offset
    2^31 the derivation fails with the invalid-index error; otherwise the
    extension and the entropy are recomputed for [childIndex + 1] and the
    whole algorithm runs again on arguments that differ only in the index
    and the entropy (same parent key, hardened flag, depth, chain code,
    fingerprints and curve).  The recursion goes on until an attempt
    succeeds: when the attempts at every index before [j] fail and the
    attempt at [j] gives a node, that node is the result. *)
Theorem deriveNode_retries_with_next_index (a : DeriveKeyArgs) (e : error) :
  attempt a = Err e ->
  0 <= childIndex a ->
  (BIP_32_HARDENED_OFFSET <= childIndex a + 1 ->
   deriveNode a = Err (Error msgNoValidChild)
   /\ errorKind (Error msgNoValidChild) = InvalidIndex)
  /\ (childIndex a + 1 < BIP_32_HARDENED_OFFSET ->
      forall extension,
        extensionFor (key a) (childIndex a + 1) (isHardened a) (curve a)
        = Ok extension ->
        let a' := retryArgs a (generateEntropy (chainCode a) extension) in
        deriveNode a = deriveNode a'
        /\ childIndex a' = childIndex a + 1
        /\ entropy a' = generateEntropy (chainCode a) extension
        /\ isHardened a' = isHardened a
        /\ depth a' = depth a
        /\ key a' = key a
        /\ chainCode a' = chainCode a
        /\ parentFingerprint a' = parentFingerprint a
        /\ masterFingerprint a' = masterFingerprint a
        /\ curve a' = curve a)
  /\ (forall j nd,
      childIndex a < j < BIP_32_HARDENED_OFFSET ->
      (forall k, childIndex a < k < j ->
                 exists extension e',
                   extensionFor (key a) k (isHardened a) (curve a)
                   = Ok extension
                   /\ attempt (atIndex a k
                                 (generateEntropy (chainCode a) extension))
                      = Err e') ->
      attemptAt a j = Ok nd ->
      deriveNode a = Ok nd).
Proof.
  intros Hfail Hpos. split; [|split].
  - intros Hend. split; [|reflexivity].
    rewrite deriveNode_eq, Hfail.
    rewrite validateBIP32Index_invalid by lia. reflexivity.
  - intros Hin extension Hext a'. subst a'.
    repeat split.
    rewrite (deriveNode_eq a), Hfail.
    rewrite validateBIP32Index_valid by lia.
    cbn [bind]. rewrite Hext. reflexivity.
  - intros j nd Hj. revert a e Hfail Hpos Hj.
    assert (Hwf : forall n a e,
               (Z.to_nat (j - childIndex a) <= n)%nat ->
               attempt a = Err e -> 0 <= childIndex a ->
               childIndex a < j < BIP_32_HARDENED_OFFSET ->
               (forall k, childIndex a < k < j ->
                          exists extension e',
                            extensionFor (key a) k (isHardened a) (curve a)
                            = Ok extension
                            /\ attempt (atIndex a k
                                 (generateEntropy (chainCode a) extension))
                               = Err e') ->
               attemptAt a j = Ok nd -> deriveNode a = Ok nd).
    { induction n as [|n IH]; intros a e Hn Hfail Hpos Hj Hbefore Hat; [lia|].
      rewrite deriveNode_eq, Hfail.
      rewrite validateBIP32Index_valid by lia. cbn [bind].
      destruct (Z.eq_dec j (childIndex a + 1)) as [->|Hne].
      - unfold attemptAt in Hat.
        apply bind_ok in Hat as [extension [Hext Hat]].
        rewrite Hext. cbn [bind]. now apply deriveNode_success.
      - destruct (Hbefore (childIndex a + 1)) as (extension & e' & Hext & Hk);
          [lia|].
        rewrite Hext. cbn [bind].
        apply (IH _ e').
        + cbn [retryArgs childIndex]. lia.
        + exact Hk.
        + cbn [retryArgs childIndex]. lia.
        + cbn [retryArgs childIndex]. lia.
        + intros k Hk'. apply Hbefore. cbn [retryArgs childIndex] in Hk'. lia.
        + rewrite attemptAt_retryArgs. exact Hat. }
    intros a e Hfail Hpos Hj Hbefore Hat.
    now apply (Hwf (Z.to_nat (j - childIndex a)) a e).
Qed.

(** C2, as the code has it.  The retry is triggered by every failure
    raised inside the attempt, whatever its cause: the [catch] clause
    binds no exception, and what follows does not depend on it.  The
    failures raised outside the attempt, by the validation of
    [childIndex + 1] and by the recomputation of the extension, reach the
    caller unmodified. *)
Theorem deriveNode_retries_on_any_failure (a : DeriveKeyArgs) (e : error) :
  attempt a = Err e ->
  deriveNode a =
  (_ <- validateBIP32Index (childIndex a + 1) ;;
   extension <-
     extensionFor (key a) (childIndex a + 1) (isHardened a) (curve a) ;;
   deriveNode (retryArgs a (generateEntropy (chainCode a) extension)))
  /\ (forall e',
      validateBIP32Index (childIndex a + 1) = Err e' -> deriveNode a = Err e')
  /\ (forall e',
      validateBIP32Index (childIndex a + 1) = Ok tt ->
      extensionFor (key a) (childIndex a + 1) (isHardened a) (curve a)
      = Err e' ->
      deriveNode a = Err e').
Proof.
  intros Hfail. rewrite deriveNode_eq, Hfail. split; [reflexivity|split].
  - intros e' ->. reflexivity.
  - intros e' -> ->. reflexivity.
Qed.

(** A node returned by [deriveNode] is the result of the first attempt
    that succeeds: the one at [childIndex], or the one at the first later
    index, every attempt before it having failed. *)
Lemma deriveNode_first_valid (a : DeriveKeyArgs) (nd : SLIP10Node) :
  deriveNode a = Ok nd ->
  attempt a = Ok nd
  \/ ((exists e, attempt a = Err e)
      /\ exists j,
          childIndex a < j < BIP_32_HARDENED_OFFSET
          /\ attemptAt a j = Ok nd
          /\ forall k, childIndex a < k < j -> exists e, attemptAt a k = Err e).
Proof.
  remember (remaining a) as n eqn:Hn. revert a Hn.
  induction n as [n IH] using lt_wf_ind. intros a -> Hok.
  rewrite deriveNode_eq in Hok.
  destruct (attempt a) as [nd0|e0] eqn:Hattempt; [left; exact Hok|].
  right. split; [eauto|].
  apply bind_ok in Hok as [[] [Hvalid Hok]].
  apply validateBIP32Index_inv in Hvalid.
  apply bind_ok in Hok as [extension [Hext Hok]].
  set (a' := retryArgs a (generateEntropy (chainCode a) extension)) in *.
  assert (Hless : (remaining a' < remaining a)%nat).
  { unfold remaining, a'. cbn [retryArgs childIndex].
    apply Z2Nat.inj_lt; lia. }
  destruct (IH _ Hless a' eq_refl Hok)
    as [Hnext | [[e1 Hnext] (j & Hj & Hat & Hbefore)]].
  - exists (childIndex a + 1). split; [lia|]. split.
    + rewrite (attemptAt_next a extension Hext). exact Hnext.
    + intros k Hk. lia.
  - exists j. unfold a' in Hj. cbn [retryArgs childIndex] in Hj.
    split; [lia|]. split; [exact Hat|].
    intros k Hk.
    destruct (Z.eq_dec k (childIndex a + 1)) as [->|Hne].
    + exists e1. rewrite (attemptAt_next a extension Hext). exact Hnext.
    + apply Hbefore. unfold a'. cbn [retryArgs childIndex]. lia.
Qed.

(** The index recorded by a successful attempt. *)
Lemma attempt_index (Hidx : recordsIndex) (a : DeriveKeyArgs)
    (nd : SLIP10Node) :
  attempt a = Ok nd ->
  Node.index nd = childIndex a
  \/ Node.index nd = childIndex a + BIP_32_HARDENED_OFFSET.
Proof.
  destruct Hidx as [Hpriv Hpub]. unfold attempt.
  destruct (key a) as [sk|pk]; intros Hok.
  - apply Hpriv in Hok. destruct (isHardened a); [right | left]; lia.
  - apply Hpub in Hok. now left.
Qed.

End DeriveNodeFacts.

(** ** BIP-32: [deriveChildKey] *)

Section DeriveChildKeyFacts.

Import Bip32 Search.
Context `{NodeEnv}.

Lemma parseIndexPart_range (part : string) (i : Z) :
  parseIndexPart part = Ok i -> 0 <= i < BIP_32_HARDENED_OFFSET.
Proof.
  destruct (parseIndexPart_spec part) as [Hyes Hno].
  destruct (testDecimal part) eqn:Ht.
  - destruct (Z.lt_ge_cases (decimalValue part) BIP_32_HARDENED_OFFSET)
      as [Hlt|Hge].
    + rewrite Hyes by auto. intros [= <-].
      split; [apply (parseInt10_decimal part Ht) | exact Hlt].
    + rewrite Hno by (intros [_ Hlt]; lia). discriminate.
  - rewrite Hno by (intros [Hyes' _]; discriminate). discriminate.
Qed.

(** The first call of [deriveNode], on either branch, in one shape. *)
Lemma deriveFromNode_eq `{Shared} (node : SLIP10Node) (c : Curve) (i : Z)
    (hardened : bool) :
  deriveFromNode node c i hardened =
  (extension <- extensionFor (parentKey node) i hardened c ;;
   deriveNode
     (nodeArgs node c i hardened (parentKey node)
        (generateEntropy (Node.chainCodeBytes node) extension))).
Proof.
  unfold deriveFromNode, parentKey.
  destruct (Node.privateKeyBytes node); reflexivity.
Qed.

(** What a successful call went through. *)
Lemma deriveChildKey_inv `{Shared} (args : DeriveChildKeyArgs) (s : string)
    (nd : SLIP10Node) :
  Derivers.path args = PathString s ->
  deriveChildKey args = Ok nd ->
  exists parent i,
    Derivers.node args = Some parent
    /\ parseIndexPart (splitHead s apostrophe) = Ok i
    /\ deriveFromNode parent (Derivers.curve args) i (includes s apostrophe)
       = Ok nd.
Proof.
  intros Hpath Hok. unfold deriveChildKey in Hok. rewrite Hpath in Hok.
  apply bind_ok in Hok as [[] [_ Hok]].
  destruct (Derivers.node args) as [parent|]; [|discriminate].
  destruct (includes s apostrophe && negb (isSome (Node.privateKeyBytes parent)));
    [discriminate|].
  apply bind_ok in Hok as [i [Hi Hok]].
  exists parent, i. auto.
Qed.

(** C3. The index recorded in the node a BIP-32 derivation returns,
    taken modulo the hardened offset, is the smallest index not below
    the requested one at which the attempt yields a key: the attempt at
    that index gives the returned node and the attempt at every index
    between the requested one and it fails.  The single-attempt functions
    record the index they are given (plus the hardened offset for a
    hardened child). *)
Theorem deriveChildKey_smallest_valid_index `{Shared}
    (Hidx : recordsIndex) (args : DeriveChildKeyArgs) (s : string)
    (nd : SLIP10Node) :
  Derivers.path args = PathString s ->
  deriveChildKey args = Ok nd ->
  exists parent requested,
    Derivers.node args = Some parent
    /\ parseIndexPart (splitHead s apostrophe) = Ok requested
    /\ let yields :=
         attemptFromNode parent (Derivers.curve args) (includes s apostrophe) in
       let found := Node.index nd mod BIP_32_HARDENED_OFFSET in
       requested <= found < BIP_32_HARDENED_OFFSET
       /\ yields found = Ok nd
       /\ forall k, requested <= k < found -> exists e, yields k = Err e.
Proof.
  intros Hpath Hok.
  destruct (deriveChildKey_inv args s nd Hpath Hok)
    as (parent & i & Hnode & Hi & Hderive).
  exists parent, i. split; [exact Hnode|]. split; [exact Hi|].
  apply parseIndexPart_range in Hi.
  rewrite deriveFromNode_eq in Hderive.
  apply bind_ok in Hderive as [extension [Hext Hderive]].
  set (c := Derivers.curve args) in *.
  set (h := includes s apostrophe) in *.
  set (a := nodeArgs parent c i h (parentKey parent)
              (generateEntropy (Node.chainCodeBytes parent) extension)) in *.
  assert (Hsame : forall k, attemptAt a k = attemptFromNode parent c h k)
    by reflexivity.
  assert (Hhere : attemptAt a i = attempt a).
  { unfold attemptAt. cbn [a nodeArgs key isHardened curve].
    rewrite Hext. reflexivity. }
  assert (Hmod : forall j r,
             0 <= j < BIP_32_HARDENED_OFFSET ->
             attemptAt a j = Ok r ->
             Node.index r mod BIP_32_HARDENED_OFFSET = j).
  { intros j r Hj Hat. unfold attemptAt in Hat.
    apply bind_ok in Hat as [ext [_ Hat]].
    apply (attempt_index Hidx) in Hat. cbn [atIndex childIndex] in Hat.
    destruct Hat as [-> | ->].
    - now apply Z.mod_small.
    - rewrite <- (Z.mul_1_l BIP_32_HARDENED_OFFSET) at 1.
      rewrite Z.mod_add by (unfold BIP_32_HARDENED_OFFSET; lia).
      now apply Z.mod_small. }
  cbv zeta.
  destruct (deriveNode_first_valid a nd Hderive)
    as [Hfirst | [[e Hfirst] (j & Hj & Hat & Hbefore)]].
  - rewrite <- Hhere in Hfirst.
    rewrite (Hmod i nd Hi Hfirst).
    split; [lia|]. split; [now rewrite <- Hsame|].
    intros k Hk. lia.
  - cbn [a nodeArgs childIndex] in Hj, Hbefore.
    rewrite (Hmod j nd) by (try lia; exact Hat).
    split; [lia|]. split; [now rewrite <- Hsame|].
    intros k Hk. rewrite <- Hsame.
    destruct (Z.eq_dec k i) as [->|Hne].
    + exists e. now rewrite Hhere.
    + apply Hbefore. lia.
Qed.

(** C6. [deriveChildKey] fails with an invalid-parameters error, before
    any derivation is attempted (the error does not depend on the
    derivation functions), when the path is not a string, when no parent
    node is given, and when the path is hardened and the parent has no
    private key.  The same hardened path from a parent that has a
    private key passes that check: the call goes on to the index
    validation and the hardened derivation. *)
Theorem deriveChildKey_invalid_parameters (args : DeriveChildKeyArgs) :
  (forall b, Derivers.path args = PathBytes b ->
     exists e, (forall S : Shared, @deriveChildKey S _ args = Err e)
               /\ errorKind e = InvalidParameters)
  /\ (Derivers.node args = None ->
      exists e, (forall S : Shared, @deriveChildKey S _ args = Err e)
                /\ errorKind e = InvalidParameters)
  /\ (forall s parent,
      Derivers.path args = PathString s ->
      Derivers.node args = Some parent ->
      includes s apostrophe = true ->
      Node.privateKeyBytes parent = None ->
      exists e, (forall S : Shared, @deriveChildKey S _ args = Err e)
                /\ errorKind e = InvalidParameters)
  /\ (forall s parent sk,
      Derivers.path args = PathString s ->
      name (Derivers.curve args) = "secp256k1"%string ->
      Derivers.node args = Some parent ->
      includes s apostrophe = true ->
      Node.privateKeyBytes parent = Some sk ->
      forall S : Shared,
        @deriveChildKey S _ args =
        (childIndex <- parseIndexPart (splitHead s apostrophe) ;;
         @deriveFromNode S _ parent (Derivers.curve args) childIndex true)).
Proof.
  split; [|split; [|split]].
  - intros b Hpath. exists (AssertionError msgPathNotString).
    split; [|reflexivity].
    intros S. unfold deriveChildKey. now rewrite Hpath.
  - intros Hnode.
    destruct (Derivers.path args) as [s|b] eqn:Hpath.
    + destruct (String.eqb (name (Derivers.curve args)) "secp256k1") eqn:Hc.
      * exists (Error msgNoNode). split; [|reflexivity].
        intros S. unfold deriveChildKey. now rewrite Hpath, Hc, Hnode.
      * exists (AssertionError msgCurve). split; [|reflexivity].
        intros S. unfold deriveChildKey. now rewrite Hpath, Hc.
    + exists (AssertionError msgPathNotString). split; [|reflexivity].
      intros S. unfold deriveChildKey. now rewrite Hpath.
  - intros s parent Hpath Hnode Hhard Hsk.
    destruct (String.eqb (name (Derivers.curve args)) "secp256k1") eqn:Hc.
    + exists (Error msgHardened). split; [|reflexivity].
      intros S. unfold deriveChildKey.
      now rewrite Hpath, Hc, Hnode, Hhard, Hsk.
    + exists (AssertionError msgCurve). split; [|reflexivity].
      intros S. unfold deriveChildKey. now rewrite Hpath, Hc.
  - intros s parent sk Hpath Hc Hnode Hhard Hsk S.
    unfold deriveChildKey.
    rewrite Hpath, Hc, Hnode, Hhard, Hsk. reflexivity.
Qed.

(** C7, as the code has it.  A string segment passes the index check
    exactly when the text before its first apostrophe (the whole segment
    when it has none) is a non-empty string of decimal digits whose value
    is below 2^31, and it is hardened when it contains an apostrophe;
    what follows the first apostrophe is not examined.  Every other
    segment, the index 2147483648 among them, fails with the
    invalid-index error. *)
Theorem deriveChildKey_segment_grammar `{Shared}
    (args : DeriveChildKeyArgs) (s : string) (parent : SLIP10Node) :
  Derivers.path args = PathString s ->
  name (Derivers.curve args) = "secp256k1"%string ->
  Derivers.node args = Some parent ->
  (includes s apostrophe = true -> Node.privateKeyBytes parent <> None) ->
  let part := splitHead s apostrophe in
  (testDecimal part = true /\ decimalValue part < BIP_32_HARDENED_OFFSET ->
   deriveChildKey args
   = deriveFromNode parent (Derivers.curve args) (decimalValue part)
       (includes s apostrophe))
  /\ (~ (testDecimal part = true
         /\ decimalValue part < BIP_32_HARDENED_OFFSET) ->
      deriveChildKey args = Err (Error msgIndex)
      /\ errorKind (Error msgIndex) = InvalidIndex)
  /\ (part = "2147483648"%string ->
      deriveChildKey args = Err (Error msgIndex)).
Proof.
  intros Hpath Hc Hnode Hhard part.
  assert (Hstep : deriveChildKey args =
                  (childIndex <- parseIndexPart part ;;
                   deriveFromNode parent (Derivers.curve args) childIndex
                     (includes s apostrophe))).
  { unfold deriveChildKey. rewrite Hpath, Hc, Hnode.
    cbn [String.eqb assert bind].
    destruct (includes s apostrophe) eqn:Hinc; [|reflexivity].
    destruct (Node.privateKeyBytes parent) eqn:Hsk; [reflexivity|].
    now destruct Hhard. }
  destruct (parseIndexPart_spec part) as [Hyes Hno].
  split; [|split].
  - intros Hvalid. rewrite Hstep, Hyes by exact Hvalid. reflexivity.
  - intros Hinvalid. rewrite Hstep, Hno by exact Hinvalid.
    split; reflexivity.
  - intros Hpart. rewrite Hstep, Hno; [reflexivity|].
    rewrite Hpart. intros [_ Hlt]. vm_compute in Hlt. discriminate.
Qed.

End DeriveChildKeyFacts.

(* ===================================================================== *)
(** * The definitions at work on concrete providers *)
(* ===================================================================== *)

Section Running.

Import Bip32 Search.

(** One step of the loop, for running it on closed arguments. *)
Lemma deriveNode_step `{Shared} (a : DeriveKeyArgs) (e : error)
    (extension : bytes) :
  attempt a = Err e ->
  validateBIP32Index (childIndex a + 1) = Ok tt ->
  extensionFor (key a) (childIndex a + 1) (isHardened a) (curve a)
  = Ok extension ->
  deriveNode a
  = deriveNode (retryArgs a (generateEntropy (chainCode a) extension)).
Proof.
  intros Hfail Hvalid Hext. now rewrite deriveNode_eq, Hfail, Hvalid, Hext.
Qed.

Lemma fixture_recordsIndex (bad : Z -> bool) (failure : error) :
  @recordsIndex (Fixture.shared bad failure).
Proof.
  split; cbn; intros until nd; destruct (bad i); intros [= <-]; reflexivity.
Qed.

Lemma fixture_hmac_length (k m : bytes) :
  List.length (@hmac_sha512 Fixture.hashes k m) = 64%nat.
Proof.
  unfold hmac_sha512, Fixture.hashes.
  rewrite length_firstn, length_app, repeat_length. lia.
Qed.

End Running.

Example slice_negative :
  slice [x01; x02; x03; x04; x05] (-2) None = [x04; x05].
Proof. reflexivity. Qed.

Example slice_window_clamped :
  slice [x01; x02; x03] 1 (Some 64) = [x02; x03].
Proof. reflexivity. Qed.

Example bytesToBigInt_big_endian : bytesToBigInt [x01; x00] = 256.
Proof. reflexivity. Qed.

Example parseInt10_prefix : parseInt10 " 12ab" = Some 12.
Proof. reflexivity. Qed.

Example parseInt10_negative : parseInt10 "-5" = Some (-5).
Proof. reflexivity. Qed.

Example parseInt10_nan : parseInt10 "abc" = None.
Proof. reflexivity. Qed.

Example parseIndexPart_max :
  Bip32.parseIndexPart "2147483647" = Ok 2147483647.
Proof. reflexivity. Qed.

Example parseIndexPart_offset :
  Bip32.parseIndexPart "2147483648" = Err (Error Bip32.msgIndex).
Proof. reflexivity. Qed.

Example parseIndexPart_signed :
  Bip32.parseIndexPart "+1" = Err (Error Bip32.msgIndex).
Proof. reflexivity. Qed.

Example isBip32Segment_hardened : isBip32Segment "44'" = true.
Proof. reflexivity. Qed.

Example createBip39KeyFromSeed_fixture :
  isOk (@Bip39.createBip39KeyFromSeed Fixture.hashes Fixture.env [x2a]
          Fixture.secp256k1) = true.
Proof. reflexivity. Qed.

(** ** The retry loop on closed arguments *)

Section Witnesses.

Import Bip32 Search.

(** With an invalid candidate at the indices 0 and 1, the hardened child
    0 of the fixture parent is derived at index 2. *)
Lemma deriveNode_retries_with_next_index_witness :
  @attempt Fixture.invalidBelow2 Fixture.firstArgs
  = Err (Error Fixture.msgInvalidScalar)
  /\ 0 <= childIndex Fixture.firstArgs
  /\ exists nd,
      @deriveNode Fixture.invalidBelow2 Fixture.firstArgs = Ok nd
      /\ Node.index nd = 2 + BIP_32_HARDENED_OFFSET.
Proof.
  split; [reflexivity|]. split; [cbn; lia|].
  destruct (@deriveNode_retries_with_next_index Fixture.invalidBelow2
              Fixture.firstArgs (Error Fixture.msgInvalidScalar) eq_refl)
    as [_ [_ Hfound]]; [cbn; lia|].
  eexists. split.
  - apply (Hfound 2).
    + cbn. unfold BIP_32_HARDENED_OFFSET. lia.
    + intros k Hk. assert (Hone : k = 1) by (cbn in Hk; lia). subst k.
      eexists. eexists. split; reflexivity.
    + reflexivity.
  - reflexivity.
Defined.

(** At the last index the loop gives up with the invalid-index error. *)
Example deriveNode_exhausted :
  @deriveNode Fixture.neverValid (atIndex Fixture.firstArgs 2147483647 [])
  = Err (Error msgNoValidChild).
Proof.
  rewrite deriveNode_eq. reflexivity.
Qed.

(** A provider failure at index 0, which has nothing to do with the key
    material, is not returned to the caller: the child is silently
    derived at index 1. *)
Lemma unrelated_failure_is_retried :
  errorKind (Error Fixture.msgProvider) = OtherError
  /\ @attemptFromNode Fixture.providerDownAt0 Fixture.env Fixture.parent
       Fixture.secp256k1 false 0
     = Err (Error Fixture.msgProvider)
  /\ exists nd,
      @deriveChildKey Fixture.providerDownAt0 Fixture.env
        (Fixture.request "0" (Some Fixture.parent) None)
      = Ok nd
      /\ Node.index nd = 1.
Proof.
  split; [reflexivity|]. split; [reflexivity|].
  eexists. split.
  - change (@deriveChildKey Fixture.providerDownAt0 Fixture.env
              (Fixture.request "0" (Some Fixture.parent) None))
      with (@deriveNode Fixture.providerDownAt0 (Fixture.firstArgsOf false)).
    erewrite deriveNode_step; [| reflexivity ..].
    apply deriveNode_success. reflexivity.
  - reflexivity.
Qed.

Lemma deriveNode_retries_on_any_failure_witness :
  @attempt Fixture.providerDownAt0 Fixture.firstArgs
  = Err (Error Fixture.msgProvider)
  /\ @deriveNode Fixture.providerDownAt0 Fixture.firstArgs
     = @deriveNode Fixture.providerDownAt0
         (retryArgs Fixture.firstArgs
            (repeat x05 32 ++ repeat x09 32 ++ [x01; x01])).
Proof.
  split; [reflexivity|].
  destruct (@deriveNode_retries_on_any_failure Fixture.providerDownAt0
              Fixture.firstArgs (Error Fixture.msgProvider) eq_refl)
    as [Hretry _].
  exact Hretry.
Defined.

(** The hardened child 0 requested from the fixture parent, with invalid
    candidates at 0 and 1: the node records index 2. *)
Lemma deriveChildKey_smallest_valid_index_witness :
  @recordsIndex Fixture.invalidBelow2
  /\ exists nd,
      @deriveChildKey Fixture.invalidBelow2 Fixture.env
        (Fixture.request "0'" (Some Fixture.parent) None)
      = Ok nd
      /\ Node.index nd mod BIP_32_HARDENED_OFFSET = 2
      /\ exists parent requested,
          Some Fixture.parent = Some parent
          /\ parseIndexPart "0" = Ok requested
          /\ requested <= Node.index nd mod BIP_32_HARDENED_OFFSET
             < BIP_32_HARDENED_OFFSET
          /\ @attemptFromNode Fixture.invalidBelow2 Fixture.env parent
               Fixture.secp256k1 true
               (Node.index nd mod BIP_32_HARDENED_OFFSET)
             = Ok nd
          /\ forall k,
              requested <= k < Node.index nd mod BIP_32_HARDENED_OFFSET ->
              exists e,
                @attemptFromNode Fixture.invalidBelow2 Fixture.env parent
                  Fixture.secp256k1 true k
                = Err e.
Proof.
  split; [apply fixture_recordsIndex|].
  assert (Hrun : exists nd,
             @deriveChildKey Fixture.invalidBelow2 Fixture.env
               (Fixture.request "0'" (Some Fixture.parent) None)
             = Ok nd
             /\ Node.index nd mod BIP_32_HARDENED_OFFSET = 2).
  { eexists. split.
    - change (@deriveChildKey Fixture.invalidBelow2 Fixture.env
                (Fixture.request "0'" (Some Fixture.parent) None))
        with (@deriveNode Fixture.invalidBelow2 Fixture.firstArgs).
      erewrite deriveNode_step; [| reflexivity ..].
      erewrite deriveNode_step; [| reflexivity ..].
      apply deriveNode_success. reflexivity.
    - reflexivity. }
  destruct Hrun as (nd & Hnd & Hmod).
  exists nd. split; [exact Hnd|]. split; [exact Hmod|].
  exact (@deriveChildKey_smallest_valid_index Fixture.env
           Fixture.invalidBelow2
           (fixture_recordsIndex _ _)
           (Fixture.request "0'" (Some Fixture.parent) None) "0'" nd
           eq_refl Hnd).
Defined.

(** A segment with text after the apostrophe is not in the grammar of
    the specification, and yet it is accepted, as the hardened index 0. *)
Lemma trailing_text_after_apostrophe_accepted :
  isBip32Segment "0'x" = false
  /\ exists nd,
      @deriveChildKey Fixture.alwaysValid Fixture.env
        (Fixture.request "0'x" (Some Fixture.parent) None)
      = Ok nd
      /\ Node.index nd = 0 + BIP_32_HARDENED_OFFSET.
Proof.
  split; [reflexivity|].
  eexists. split.
  - change (@deriveChildKey Fixture.alwaysValid Fixture.env
              (Fixture.request "0'x" (Some Fixture.parent) None))
      with (@deriveNode Fixture.alwaysValid Fixture.firstArgs).
    apply deriveNode_success. reflexivity.
  - reflexivity.
Qed.

Lemma deriveChildKey_segment_grammar_witness :
  (@deriveChildKey Fixture.alwaysValid Fixture.env
     (Fixture.request "44'" (Some Fixture.parent) None)
   = @deriveFromNode Fixture.alwaysValid Fixture.env Fixture.parent
       Fixture.secp256k1 44 true)
  /\ (@deriveChildKey Fixture.alwaysValid Fixture.env
        (Fixture.request "2147483648" (Some Fixture.parent) None)
      = Err (Error msgIndex))
  /\ (@deriveChildKey Fixture.alwaysValid Fixture.env
        (Fixture.request "4 4" (Some Fixture.publicParent) None)
      = Err (Error msgIndex)).
Proof.
  split; [|split].
  - destruct (@deriveChildKey_segment_grammar Fixture.env Fixture.alwaysValid
                (Fixture.request "44'" (Some Fixture.parent) None) "44'"
                Fixture.parent eq_refl eq_refl eq_refl)
      as (Haccept & _ & _); [intros _; discriminate|].
    apply Haccept. split; reflexivity.
  - destruct (@deriveChildKey_segment_grammar Fixture.env Fixture.alwaysValid
                (Fixture.request "2147483648" (Some Fixture.parent) None)
                "2147483648" Fixture.parent eq_refl eq_refl eq_refl)
      as (_ & _ & Hoffset); [intros Hinc; discriminate Hinc|].
    apply Hoffset. reflexivity.
  - destruct (@deriveChildKey_segment_grammar Fixture.env Fixture.alwaysValid
                (Fixture.request "4 4" (Some Fixture.publicParent) None)
                "4 4" Fixture.publicParent eq_refl eq_refl eq_refl)
      as (_ & Hreject & _); [intros Hinc; discriminate Hinc|].
    apply Hreject. intros [Hdigits _]. discriminate Hdigits.
Defined.

Lemma deriveChildKey_invalid_parameters_witness :
  (exists e,
      (forall S : Shared,
          @deriveChildKey S Fixture.env
            (Derivers.mkArgs (PathBytes [x01]) Fixture.secp256k1
               (Some Fixture.parent) None)
          = Err e)
      /\ errorKind e = InvalidParameters)
  /\ (exists e,
      (forall S : Shared,
          @deriveChildKey S Fixture.env (Fixture.request "0" None None)
          = Err e)
      /\ errorKind e = InvalidParameters)
  /\ (exists e,
      (forall S : Shared,
          @deriveChildKey S Fixture.env
            (Fixture.request "0'" (Some Fixture.publicParent) None)
          = Err e)
      /\ errorKind e = InvalidParameters)
  /\ (forall S : Shared,
      @deriveChildKey S Fixture.env
        (Fixture.request "0'" (Some Fixture.parent) None)
      = (childIndex <- parseIndexPart "0" ;;
         @deriveFromNode S Fixture.env Fixture.parent Fixture.secp256k1
           childIndex true)).
Proof.
  split; [|split; [|split]].
  - exact (proj1 (@deriveChildKey_invalid_parameters Fixture.env
                    (Derivers.mkArgs (PathBytes [x01]) Fixture.secp256k1
                       (Some Fixture.parent) None))
             [x01] eq_refl).
  - exact (proj1 (proj2 (@deriveChildKey_invalid_parameters Fixture.env
                           (Fixture.request "0" None None)))
             eq_refl).
  - exact (proj1 (proj2 (proj2 (@deriveChildKey_invalid_parameters
                                  Fixture.env
                                  (Fixture.request "0'"
                                     (Some Fixture.publicParent) None))))
             "0'"%string Fixture.publicParent eq_refl eq_refl eq_refl eq_refl).
  - exact (proj2 (proj2 (proj2 (@deriveChildKey_invalid_parameters
                                  Fixture.env
                                  (Fixture.request "0'"
                                     (Some Fixture.parent) None))))
             "0'"%string Fixture.parent (repeat x09 32)
             eq_refl eq_refl eq_refl eq_refl eq_refl).
Defined.

End Witnesses.

(** ** BIP-39 and the address helpers on closed arguments *)

Section MoreWitnesses.

Lemma createBip39KeyFromSeed_hmac_split_witness :
  (forall k m, List.length (@hmac_sha512 Fixture.hashes k m) = 64%nat)
  /\ exists nd,
      @Bip39.createBip39KeyFromSeed Fixture.hashes Fixture.env [x2a]
        Fixture.secp256k1
      = Ok nd
      /\ Node.privateKeyBytes nd = Some (x2a :: repeat x01 31)
      /\ Node.chainCodeBytes nd = repeat x01 32.
Proof.
  split; [exact fixture_hmac_length|].
  destruct (@Bip39.createBip39KeyFromSeed Fixture.hashes Fixture.env [x2a]
              Fixture.secp256k1) as [nd|e] eqn:Hrun; [|discriminate Hrun].
  exists nd. split; [reflexivity|].
  destruct (@createBip39KeyFromSeed_hmac_split Fixture.hashes Fixture.env
              fixture_hmac_length [x2a] Fixture.secp256k1)
    as [_ Hsplit].
  destruct (Hsplit nd Hrun) as (_ & Hsk & Hcc).
  split; [exact Hsk | exact Hcc].
Defined.

Lemma createBip39KeyFromSeed_root_witness :
  exists nd,
    @Bip39.createBip39KeyFromSeed Fixture.hashes Fixture.env [x2a]
      Fixture.secp256k1
    = Ok nd
    /\ Node.depth nd = 0
    /\ Node.parentFingerprint nd = 0
    /\ Node.index nd = 0
    /\ Node.masterFingerprint nd = Some (@Node.fingerprint Fixture.env nd).
Proof.
  destruct (@Bip39.createBip39KeyFromSeed Fixture.hashes Fixture.env [x2a]
              Fixture.secp256k1) as [nd|e] eqn:Hrun; [|discriminate Hrun].
  exists nd. split; [reflexivity|].
  destruct (@createBip39KeyFromSeed_root Fixture.hashes Fixture.env [x2a]
              Fixture.secp256k1 nd Hrun) as (Hd & Hp & Hi & Hm).
  repeat split; try assumption. apply Hm. reflexivity.
Defined.

Lemma createBip39KeyFromSeed_revisions_agree_witness :
  (forall k m, List.length (@hmac_sha512 Fixture.hashes k m) = 64%nat)
  /\ 0 < bytesToBigInt (x2a :: repeat x01 31) < curve_n Fixture.secp256k1
  /\ exists nd,
      @Bip39Tuple.createBip39KeyFromSeed Fixture.hashes [x2a]
        Fixture.secp256k1
      = Ok (x2a :: repeat x01 31,
            x04 :: x2a :: repeat x01 31 ++ repeat x07 32,
            repeat x01 32)
      /\ @Bip39.createBip39KeyFromSeed Fixture.hashes Fixture.env [x2a]
           Fixture.secp256k1
         = Ok nd
      /\ Node.privateKeyBytes nd = Some (x2a :: repeat x01 31)
      /\ Node.chainCodeBytes nd = repeat x01 32.
Proof.
  split; [exact fixture_hmac_length|].
  assert (Hrange : 0 < bytesToBigInt (x2a :: repeat x01 31)
                   < curve_n Fixture.secp256k1)
    by (split; reflexivity).
  split; [exact Hrange|].
  exact (proj2 (@createBip39KeyFromSeed_revisions_agree Fixture.hashes
                  Fixture.env fixture_hmac_length [x2a] Fixture.secp256k1
                  Hrange)
           (x04 :: x2a :: repeat x01 31 ++ repeat x07 32)
           (x02 :: x2a :: repeat x01 31)
           eq_refl eq_refl eq_refl).
Defined.

(** Two requests with the same mnemonic and curve, one with a parent
    node and a network, the other without. *)
Lemma bip39_deriveChildKey_ignores_parent_witness :
  @Bip39.deriveChildKey Fixture.hashes Fixture.env Fixture.mnemonics
    (Fixture.request "abandon" (Some Fixture.parent) (Some testnet))
  = @Bip39.deriveChildKey Fixture.hashes Fixture.env Fixture.mnemonics
      (Fixture.request "abandon" None None).
Proof.
  exact (@bip39_deriveChildKey_ignores_parent Fixture.hashes Fixture.env
           Fixture.mnemonics
           (Fixture.request "abandon" (Some Fixture.parent) (Some testnet))
           (Fixture.request "abandon" None None) eq_refl eq_refl).
Defined.

Lemma eth_address_helpers_witness :
  publicKeyLength Fixture.secp256k1 = 65
  /\ (exists e,
        @Bip32.privateKeyToEthAddress Fixture.hashes Fixture.secp256k1
          (repeat x09 31)
        = Err e
        /\ errorKind e = InvalidKey)
  /\ @Bip32.privateKeyToEthAddress Fixture.hashes Fixture.secp256k1
       (repeat x09 32)
     = Ok (repeat x09 20).
Proof.
  split; [reflexivity|].
  destruct (@eth_address_helpers Fixture.hashes Fixture.secp256k1 eq_refl)
    as (Hprivate & _ & Hshort & _ & _).
  split.
  - apply Hshort. reflexivity.
  - apply Hprivate. split; [reflexivity|]. split.
    + exists x09. split; [left; reflexivity | discriminate].
    + exists (x04 :: repeat x09 32 ++ repeat x07 32).
      split; [reflexivity|]. split; [reflexivity|]. split.
      * exists x04. split; [left; reflexivity | discriminate].
      * reflexivity.
Defined.

End MoreWitnesses.

(* ===================================================================== *)
(** * Further properties of the derivers *)
(* ===================================================================== *)

(** ** The multipath segment of a mnemonic *)

Section MultipathFacts.

Ltac by_cases_on c :=
  destruct c as [[|] [|] [|] [|] [|] [|] [|] [|]]; reflexivity.

Lemma lowerChar_idem (c : ascii) : lowerChar (lowerChar c) = lowerChar c.
Proof. by_cases_on c. Qed.

Lemma isWhiteSpace_lowerChar (c : ascii) :
  isWhiteSpace (lowerChar c) = isWhiteSpace c.
Proof. by_cases_on c. Qed.

Lemma isUpper_lowerChar (c : ascii) : isUpper (lowerChar c) = false.
Proof. by_cases_on c. Qed.

Lemma lowerChar_upperChar (c : ascii) : lowerChar (upperChar c) = lowerChar c.
Proof. by_cases_on c. Qed.

Lemma toLowerCase_idem (s : string) :
  toLowerCase (toLowerCase s) = toLowerCase s.
Proof.
  induction s as [|c s IH]; simpl; [reflexivity|].
  now rewrite lowerChar_idem, IH.
Qed.

Lemma toLowerCase_app (s t : string) :
  toLowerCase (s ++ t) = (toLowerCase s ++ toLowerCase t)%string.
Proof.
  induction s as [|c s IH]; simpl; [reflexivity|]. now rewrite IH.
Qed.

Lemma toLowerCase_toUpperCase (s : string) :
  toLowerCase (toUpperCase s) = toLowerCase s.
Proof.
  induction s as [|c s IH]; simpl; [reflexivity|].
  now rewrite lowerChar_upperChar, IH.
Qed.

Lemma hasUpper_toLowerCase (s : string) : hasUpper (toLowerCase s) = false.
Proof.
  induction s as [|c s IH]; simpl; [reflexivity|].
  now rewrite isUpper_lowerChar, IH.
Qed.

Lemma allWhiteSpace_toLowerCase (s : string) :
  allWhiteSpace (toLowerCase s) = allWhiteSpace s.
Proof.
  induction s as [|c s IH]; simpl; [reflexivity|].
  now rewrite isWhiteSpace_lowerChar, IH.
Qed.

Lemma skipWhiteSpace_toLowerCase (s : string) :
  skipWhiteSpace (toLowerCase s) = toLowerCase (skipWhiteSpace s).
Proof.
  induction s as [|c s IH]; simpl; [reflexivity|].
  rewrite isWhiteSpace_lowerChar.
  destruct (isWhiteSpace c); [exact IH | reflexivity].
Qed.

Lemma trimEnd_toLowerCase (s : string) :
  trimEnd (toLowerCase s) = toLowerCase (trimEnd s).
Proof.
  induction s as [|c s IH]; simpl; [reflexivity|].
  rewrite IH, isWhiteSpace_lowerChar.
  destruct (trimEnd s); simpl; [destruct (isWhiteSpace c)|]; reflexivity.
Qed.

Lemma trim_toLowerCase (s : string) :
  trim (toLowerCase s) = toLowerCase (trim s).
Proof.
  unfold trim. now rewrite skipWhiteSpace_toLowerCase, trimEnd_toLowerCase.
Qed.

Lemma hasUpper_trimEnd (s : string) :
  hasUpper s = false -> hasUpper (trimEnd s) = false.
Proof.
  induction s as [|c s IH]; simpl; [reflexivity|].
  intros Hs. apply orb_false_iff in Hs as [Hc Hs]. specialize (IH Hs).
  destruct (trimEnd s); simpl in *.
  - destruct (isWhiteSpace c); simpl; [reflexivity | now rewrite Hc].
  - now rewrite Hc, IH.
Qed.

Lemma hasUpper_skipWhiteSpace (s : string) :
  hasUpper s = false -> hasUpper (skipWhiteSpace s) = false.
Proof.
  induction s as [|c s IH]; simpl; [reflexivity|].
  intros Hs. destruct (isWhiteSpace c); [|exact Hs].
  apply orb_false_iff in Hs as [_ Hs]. auto.
Qed.

Lemma starts_skipWhiteSpace (s : string) :
  startsWithWhiteSpace (skipWhiteSpace s) = false.
Proof.
  induction s as [|c s IH]; simpl; [reflexivity|].
  destruct (isWhiteSpace c) eqn:Hc; [exact IH | exact Hc].
Qed.

Lemma skipWhiteSpace_fixed (s : string) :
  startsWithWhiteSpace s = false -> skipWhiteSpace s = s.
Proof.
  destruct s as [|c s]; simpl; [reflexivity|]. now intros ->.
Qed.

Lemma starts_trimEnd (s : string) :
  startsWithWhiteSpace s = false -> startsWithWhiteSpace (trimEnd s) = false.
Proof.
  destruct s as [|c s]; simpl; [reflexivity|].
  intros Hc. destruct (trimEnd s); simpl; [now rewrite Hc | exact Hc].
Qed.

Lemma ends_trimEnd (s : string) : endsWithWhiteSpace (trimEnd s) = false.
Proof.
  induction s as [|c s IH]; simpl; [reflexivity|].
  destruct (trimEnd s) as [|x kept].
  - destruct (isWhiteSpace c) eqn:Hc; simpl; [reflexivity | exact Hc].
  - exact IH.
Qed.

Lemma trimEnd_idem (s : string) : trimEnd (trimEnd s) = trimEnd s.
Proof.
  induction s as [|c s IH]; simpl; [reflexivity|].
  destruct (trimEnd s) as [|x kept] eqn:Hs.
  - destruct (isWhiteSpace c) eqn:Hc; simpl; [reflexivity | now rewrite Hc].
  - change (trimEnd (String c (String x kept)))
      with (match trimEnd (String x kept) with
            | EmptyString =>
              if isWhiteSpace c then EmptyString else String c EmptyString
            | String y more => String c (String y more)
            end).
    now rewrite IH.
Qed.

Lemma trim_idem (s : string) : trim (trim s) = trim s.
Proof.
  unfold trim.
  rewrite (skipWhiteSpace_fixed (trimEnd (skipWhiteSpace s)))
    by (apply starts_trimEnd, starts_skipWhiteSpace).
  apply trimEnd_idem.
Qed.

Lemma skipWhiteSpace_all (w : string) :
  allWhiteSpace w = true -> skipWhiteSpace w = EmptyString.
Proof.
  induction w as [|c w IH]; simpl; [reflexivity|].
  intros Hw. apply andb_true_iff in Hw as [-> Hw]. auto.
Qed.

Lemma trimEnd_all (w : string) :
  allWhiteSpace w = true -> trimEnd w = EmptyString.
Proof.
  induction w as [|c w IH]; simpl; [reflexivity|].
  intros Hw. apply andb_true_iff in Hw as [Hc Hw].
  now rewrite (IH Hw), Hc.
Qed.

Lemma skipWhiteSpace_padded_left (w s : string) :
  allWhiteSpace w = true -> skipWhiteSpace (w ++ s) = skipWhiteSpace s.
Proof.
  induction w as [|c w IH]; simpl; [reflexivity|].
  intros Hw. apply andb_true_iff in Hw as [-> Hw]. auto.
Qed.

Lemma trimEnd_padded_right (s w : string) :
  allWhiteSpace w = true -> trimEnd (s ++ w) = trimEnd s.
Proof.
  intros Hw. induction s as [|c s IH]; simpl.
  - now apply trimEnd_all.
  - now rewrite IH.
Qed.

Lemma trim_padded (w1 s w2 : string) :
  allWhiteSpace w1 = true -> allWhiteSpace w2 = true ->
  trim (w1 ++ s ++ w2) = trim s.
Proof.
  intros Hw1 Hw2. unfold trim.
  rewrite skipWhiteSpace_padded_left by assumption.
  induction s as [|c s IH]; simpl.
  - now rewrite skipWhiteSpace_all.
  - destruct (isWhiteSpace c); [exact IH|].
    change (String c (s ++ w2)) with (String c s ++ w2)%string.
    now apply trimEnd_padded_right.
Qed.

(** X1. The segment of a mnemonic is "bip39:" followed by a payload that
    is already normal: it has no upper-case letter, and it neither
    starts nor ends with white space. *)
Theorem bip39MnemonicToMultipath_payload_normal (mnemonic : string) :
  isAsciiString mnemonic = true ->
  exists payload,
    bip39MnemonicToMultipath mnemonic = ("bip39:" ++ payload)%string
    /\ hasUpper payload = false
    /\ startsWithWhiteSpace payload = false
    /\ endsWithWhiteSpace payload = false.
Proof.
  intros _. exists (trim (toLowerCase mnemonic)).
  split; [reflexivity|]. unfold trim. split; [|split].
  - apply hasUpper_trimEnd, hasUpper_skipWhiteSpace, hasUpper_toLowerCase.
  - apply starts_trimEnd, starts_skipWhiteSpace.
  - apply ends_trimEnd.
Qed.

(** X2. Normalisation is idempotent: the payload of a segment, taken as
    a mnemonic again, gives the same segment. *)
Theorem bip39MnemonicToMultipath_idempotent (mnemonic : string) :
  isAsciiString mnemonic = true ->
  bip39MnemonicToMultipath (trim (toLowerCase mnemonic))
  = bip39MnemonicToMultipath mnemonic.
Proof.
  intros _. unfold bip39MnemonicToMultipath.
  now rewrite <- (trim_toLowerCase (toLowerCase mnemonic)), toLowerCase_idem,
    trim_idem.
Qed.

(** X3. Letter case and white space around the mnemonic are ignored:
    the upper-case spelling and any padding with white space on either
    side give the segment of the mnemonic itself. *)
Theorem bip39MnemonicToMultipath_ignores_case_and_padding
    (before mnemonic after : string) :
  isAsciiString mnemonic = true ->
  allWhiteSpace before = true ->
  allWhiteSpace after = true ->
  bip39MnemonicToMultipath (before ++ toUpperCase mnemonic ++ after)
  = bip39MnemonicToMultipath mnemonic
  /\ bip39MnemonicToMultipath (before ++ mnemonic ++ after)
     = bip39MnemonicToMultipath mnemonic.
Proof.
  intros _ Hb Ha. unfold bip39MnemonicToMultipath.
  rewrite !toLowerCase_app, toLowerCase_toUpperCase.
  rewrite trim_padded by (rewrite allWhiteSpace_toLowerCase; assumption).
  split; reflexivity.
Qed.

End MultipathFacts.

(** ** The retry loop: failures and exhaustion *)

Section RetryLoopFacts.

Import Bip32 Search.
Context `{Shared}.

(** X4. [deriveNode] never returns the failure of an attempt.  The only
    errors it returns are the invalid-index error of the exhausted retry
    and, on the private branch, a failure of [deriveSecretExtension] at
    one of the later indices. *)
Theorem deriveNode_errors (a : DeriveKeyArgs) (e : error) :
  deriveNode a = Err e ->
  e = Error msgNoValidChild
  \/ exists privateKey j,
      key a = PrivateKey privateKey
      /\ childIndex a < j < BIP_32_HARDENED_OFFSET
      /\ deriveSecretExtension privateKey j (isHardened a) (curve a) = Err e.
Proof.
  remember (remaining a) as n eqn:Hn. revert a Hn.
  induction n as [n IH] using lt_wf_ind. intros a -> Hfail.
  rewrite deriveNode_eq in Hfail.
  destruct (attempt a) as [nd|e0]; [discriminate|].
  destruct (validateBIP32Index (childIndex a + 1)) as [[]|e1] eqn:Hvalid.
  - apply validateBIP32Index_inv in Hvalid. cbn [bind] in Hfail.
    destruct (extensionFor (key a) (childIndex a + 1) (isHardened a) (curve a))
      as [extension|e2] eqn:Hext; cbn [bind] in Hfail.
    + set (a' := retryArgs a (generateEntropy (chainCode a) extension)) in *.
      assert (Hless : (remaining a' < remaining a)%nat).
      { unfold remaining, a'. cbn [retryArgs childIndex].
        apply Z2Nat.inj_lt; lia. }
      destruct (IH _ Hless a' eq_refl Hfail)
        as [-> | (sk & j & Hkey & Hj & Hsecret)]; [now left|].
      right. exists sk, j. unfold a' in *.
      cbn [retryArgs key childIndex isHardened curve] in *.
      repeat split; try assumption; lia.
    + injection Hfail as <-. right.
      unfold extensionFor in Hext.
      destruct (key a) as [sk|pk]; [|discriminate].
      exists sk, (childIndex a + 1). repeat split; try assumption; lia.
  - cbn [bind] in Hfail. injection Hfail as <-. left.
    unfold validateBIP32Index in Hvalid.
    destruct ((0 <=? childIndex a + 1)
              && (childIndex a + 1 <? BIP_32_HARDENED_OFFSET));
      [discriminate | now injection Hvalid as <-].
Qed.

(** X5. When no index from [childIndex] up to 2^31 - 1 yields a key (each
    extension is computed and each attempt fails), the derivation ends
    with the invalid-index error. *)
Theorem deriveNode_exhausts_range (a : DeriveKeyArgs) (e : error) :
  attempt a = Err e ->
  (forall k, childIndex a < k < BIP_32_HARDENED_OFFSET ->
             exists extension e',
               extensionFor (key a) k (isHardened a) (curve a) = Ok extension
               /\ attempt (atIndex a k (generateEntropy (chainCode a) extension))
                  = Err e') ->
  0 <= childIndex a ->
  deriveNode a = Err (Error msgNoValidChild).
Proof.
  remember (remaining a) as n eqn:Hn. revert a e Hn.
  induction n as [n IH] using lt_wf_ind.
  intros a e -> Hfail Hlater Hpos.
  rewrite deriveNode_eq, Hfail.
  destruct (Z.lt_ge_cases (childIndex a + 1) BIP_32_HARDENED_OFFSET)
    as [Hin|Hout].
  - rewrite validateBIP32Index_valid by lia. cbn [bind].
    destruct (Hlater (childIndex a + 1)) as (extension & e' & Hext & Hnext);
      [lia|].
    rewrite Hext. cbn [bind].
    set (a' := retryArgs a (generateEntropy (chainCode a) extension)).
    assert (Hless : (remaining a' < remaining a)%nat).
    { unfold remaining, a'. cbn [retryArgs childIndex].
      apply Z2Nat.inj_lt; lia. }
    apply (IH _ Hless a' e' eq_refl).
    + exact Hnext.
    + intros k Hk. apply Hlater. unfold a' in Hk.
      cbn [retryArgs childIndex] in Hk. lia.
    + unfold a'. cbn [retryArgs childIndex]. lia.
  - now rewrite validateBIP32Index_invalid by lia.
Qed.

End RetryLoopFacts.

(** ** The two branches of the derivation *)

Section BranchFacts.

Import Bip32 Search.

(** The loop on a public parent key reads only the public functions. *)
Lemma deriveNode_public_branch (S1 S2 : Shared) (a : DeriveKeyArgs)
    (publicKey : bytes) :
  key a = PublicKey publicKey ->
  (forall pk i, @derivePublicExtension S1 pk i = @derivePublicExtension S2 pk i) ->
  (forall cc ext, @generateEntropy S1 cc ext = @generateEntropy S2 cc ext) ->
  (forall ent pk d mfp pfp i c,
      @derivePublicChildKey S1 ent pk d mfp pfp i c
      = @derivePublicChildKey S2 ent pk d mfp pfp i c) ->
  @deriveNode S1 a = @deriveNode S2 a.
Proof.
  intros Hkey Hext Hent Hchild.
  remember (remaining a) as n eqn:Hn. revert a Hn Hkey.
  induction n as [n IH] using lt_wf_ind. intros a -> Hkey.
  rewrite (@deriveNode_eq S1), (@deriveNode_eq S2).
  unfold attempt, extensionFor. rewrite Hkey, Hchild.
  destruct (@derivePublicChildKey S2 (entropy a) publicKey (depth a)
              (masterFingerprint a) (parentFingerprint a) (childIndex a)
              (curve a)) as [nd|e]; [reflexivity|].
  destruct (validateBIP32Index (childIndex a + 1)) as [[]|e1] eqn:Hvalid;
    [|reflexivity].
  apply validateBIP32Index_inv in Hvalid. cbn [bind].
  rewrite Hext, Hent.
  eapply IH; [| reflexivity | exact Hkey].
  unfold remaining. cbn [retryArgs childIndex]. apply Z2Nat.inj_lt; lia.
Qed.

(** The loop on a private parent key reads only the private functions. *)
Lemma deriveNode_private_branch (S1 S2 : Shared) (a : DeriveKeyArgs)
    (privateKey : bytes) :
  key a = PrivateKey privateKey ->
  (forall sk i h c,
      @deriveSecretExtension S1 sk i h c = @deriveSecretExtension S2 sk i h c) ->
  (forall cc ext, @generateEntropy S1 cc ext = @generateEntropy S2 cc ext) ->
  (forall ent sk d mfp pfp i h c,
      @derivePrivateChildKey S1 ent sk d mfp pfp i h c
      = @derivePrivateChildKey S2 ent sk d mfp pfp i h c) ->
  @deriveNode S1 a = @deriveNode S2 a.
Proof.
  intros Hkey Hext Hent Hchild.
  remember (remaining a) as n eqn:Hn. revert a Hn Hkey.
  induction n as [n IH] using lt_wf_ind. intros a -> Hkey.
  rewrite (@deriveNode_eq S1), (@deriveNode_eq S2).
  unfold attempt, extensionFor. rewrite Hkey, Hchild.
  destruct (@derivePrivateChildKey S2 (entropy a) privateKey (depth a)
              (masterFingerprint a) (parentFingerprint a) (childIndex a)
              (isHardened a) (curve a)) as [nd|e]; [reflexivity|].
  destruct (validateBIP32Index (childIndex a + 1)) as [[]|e1] eqn:Hvalid;
    [|reflexivity].
  apply validateBIP32Index_inv in Hvalid. cbn [bind].
  rewrite Hext.
  destruct (@deriveSecretExtension S2 privateKey (childIndex a + 1)
              (isHardened a) (curve a)) as [extension|e2]; [|reflexivity].
  cbn [bind]. rewrite Hent.
  eapply IH; [| reflexivity | exact Hkey].
  unfold remaining. cbn [retryArgs childIndex]. apply Z2Nat.inj_lt; lia.
Qed.

Context `{NodeEnv}.

(** X6. The branch is chosen by the parent alone.  From a public-only
    parent the result depends on [derivePublicExtension],
    [generateEntropy] and [derivePublicChildKey] only: the private-key
    functions are never consulted.  From a parent with a private key it
    depends on [deriveSecretExtension], [generateEntropy] and
    [derivePrivateChildKey] only. *)
Theorem deriveChildKey_uses_one_branch (S1 S2 : Shared)
    (args : DeriveChildKeyArgs) (parent : SLIP10Node) :
  Derivers.node args = Some parent ->
  (forall cc ext, @generateEntropy S1 cc ext = @generateEntropy S2 cc ext) ->
  (Node.privateKeyBytes parent = None ->
   (forall pk i,
       @derivePublicExtension S1 pk i = @derivePublicExtension S2 pk i) ->
   (forall ent pk d mfp pfp i c,
       @derivePublicChildKey S1 ent pk d mfp pfp i c
       = @derivePublicChildKey S2 ent pk d mfp pfp i c) ->
   @deriveChildKey S1 _ args = @deriveChildKey S2 _ args)
  /\ (Node.privateKeyBytes parent <> None ->
      (forall sk i h c,
          @deriveSecretExtension S1 sk i h c
          = @deriveSecretExtension S2 sk i h c) ->
      (forall ent sk d mfp pfp i h c,
          @derivePrivateChildKey S1 ent sk d mfp pfp i h c
          = @derivePrivateChildKey S2 ent sk d mfp pfp i h c) ->
      @deriveChildKey S1 _ args = @deriveChildKey S2 _ args).
Proof.
  intros Hnode Hent. split.
  - intros Hpub Hext Hchild. unfold deriveChildKey.
    destruct (Derivers.path args) as [s|b]; [|reflexivity].
    destruct (assert (String.eqb (name (Derivers.curve args)) "secp256k1")
                msgCurve) as [[]|e]; [|reflexivity].
    cbn [bind]. rewrite Hnode.
    destruct (includes s apostrophe
              && negb (isSome (Node.privateKeyBytes parent)));
      [reflexivity|].
    destruct (parseIndexPart (splitHead s apostrophe)) as [i|e];
      [|reflexivity].
    cbn [bind]. unfold deriveFromNode. rewrite Hpub, Hext, Hent.
    now apply (deriveNode_public_branch S1 S2 _
                 (Node.compressedPublicKeyBytes parent)).
  - intros Hpriv Hext Hchild. unfold deriveChildKey.
    destruct (Derivers.path args) as [s|b]; [|reflexivity].
    destruct (assert (String.eqb (name (Derivers.curve args)) "secp256k1")
                msgCurve) as [[]|e]; [|reflexivity].
    cbn [bind]. rewrite Hnode.
    destruct (includes s apostrophe
              && negb (isSome (Node.privateKeyBytes parent)));
      [reflexivity|].
    destruct (parseIndexPart (splitHead s apostrophe)) as [i|e];
      [|reflexivity].
    cbn [bind]. unfold deriveFromNode.
    destruct (Node.privateKeyBytes parent) as [sk|]; [|now destruct Hpriv].
    rewrite Hext.
    destruct (@deriveSecretExtension S2 sk i (includes s apostrophe)
                (Derivers.curve args)) as [extension|e]; [|reflexivity].
    cbn [bind]. rewrite Hent.
    now apply (deriveNode_private_branch S1 S2 _ sk).
Qed.

End BranchFacts.

(** ** Paths that lead to the same derivation *)

Section PathFacts.

Import Bip32 Search.
Context `{Shared} `{NodeEnv}.

Lemma includes_app (s t : string) (c : ascii) :
  includes (s ++ t) c = includes s c || includes t c.
Proof.
  induction s as [|x s IH]; simpl; [reflexivity|].
  destruct (Ascii.eqb x c); [reflexivity | exact IH].
Qed.

Lemma splitHead_stops (s t : string) (c : ascii) :
  splitHead (s ++ String c t) c = splitHead s c.
Proof.
  induction s as [|x s IH]; simpl.
  - now rewrite Ascii.eqb_refl.
  - destruct (Ascii.eqb x c); [reflexivity | now rewrite IH].
Qed.

Lemma decimalValue_leading_zero (s : string) :
  decimalValue (String "0" s) = decimalValue s.
Proof. reflexivity. Qed.

Lemma parseIndexPart_leading_zero (part : string) :
  testDecimal part = true ->
  parseIndexPart (String "0" part) = parseIndexPart part.
Proof.
  intros Hpart.
  assert (Hzero : testDecimal (String "0" part) = true).
  { destruct part; [discriminate|]. exact Hpart. }
  destruct (parseIndexPart_spec part) as [Hyes Hno].
  destruct (parseIndexPart_spec (String "0" part)) as [Hyes0 Hno0].
  rewrite decimalValue_leading_zero in Hyes0, Hno0.
  destruct (Z.lt_ge_cases (decimalValue part) BIP_32_HARDENED_OFFSET)
    as [Hlt|Hge].
  - now rewrite Hyes, Hyes0 by auto.
  - rewrite Hno, Hno0; [reflexivity | |]; intros [_ Hlt]; lia.
Qed.

(** X7. What follows the first apostrophe of a segment never matters:
    two requests on the same curve and parent whose paths agree up to
    and including an apostrophe give the same result. *)
Theorem deriveChildKey_ignores_text_after_apostrophe
    (args1 args2 : DeriveChildKeyArgs) (head tail1 tail2 : string) :
  Derivers.path args1 = PathString (head ++ String apostrophe tail1) ->
  Derivers.path args2 = PathString (head ++ String apostrophe tail2) ->
  Derivers.curve args1 = Derivers.curve args2 ->
  Derivers.node args1 = Derivers.node args2 ->
  deriveChildKey args1 = deriveChildKey args2.
Proof.
  intros Hp1 Hp2 Hc Hn. unfold deriveChildKey.
  rewrite Hp1, Hp2, Hc, Hn.
  rewrite !includes_app, !splitHead_stops.
  cbn [includes]. rewrite Ascii.eqb_refl, !orb_true_r. reflexivity.
Qed.

(** X8. Leading zeros are accepted and do not change the derivation: a
    decimal segment with a zero in front gives the result of the segment
    without it. *)
Theorem deriveChildKey_ignores_leading_zero
    (args1 args2 : DeriveChildKeyArgs) (segment : string) :
  testDecimal (splitHead segment apostrophe) = true ->
  Derivers.path args1 = PathString (String "0" segment) ->
  Derivers.path args2 = PathString segment ->
  Derivers.curve args1 = Derivers.curve args2 ->
  Derivers.node args1 = Derivers.node args2 ->
  deriveChildKey args1 = deriveChildKey args2.
Proof.
  intros Hdigits Hp1 Hp2 Hc Hn. unfold deriveChildKey.
  rewrite Hp1, Hp2, Hc, Hn.
  assert (Hinc : includes (String "0" segment) apostrophe
                 = includes segment apostrophe) by reflexivity.
  assert (Hsplit : splitHead (String "0" segment) apostrophe
                   = String "0" (splitHead segment apostrophe))
    by reflexivity.
  rewrite Hinc, Hsplit, parseIndexPart_leading_zero by exact Hdigits.
  reflexivity.
Qed.

(** X9. An index whose candidate key is invalid is an alias of the next
    one: when the attempt at the requested index fails and the next
    index is below 2^31, the request gives exactly the result of the
    request for the next index. *)
Theorem deriveChildKey_invalid_index_aliases_next
    (args1 args2 : DeriveChildKeyArgs) (s1 s2 : string)
    (parent : SLIP10Node) (i : Z) (extension : bytes) (e : error) :
  Derivers.path args1 = PathString s1 ->
  Derivers.path args2 = PathString s2 ->
  Derivers.curve args1 = Derivers.curve args2 ->
  Derivers.node args1 = Some parent ->
  Derivers.node args2 = Some parent ->
  includes s1 apostrophe = includes s2 apostrophe ->
  parseIndexPart (splitHead s1 apostrophe) = Ok i ->
  parseIndexPart (splitHead s2 apostrophe) = Ok (i + 1) ->
  extensionFor (parentKey parent) i (includes s1 apostrophe)
    (Derivers.curve args1)
  = Ok extension ->
  attempt
    (nodeArgs parent (Derivers.curve args1) i (includes s1 apostrophe)
       (parentKey parent)
       (generateEntropy (Node.chainCodeBytes parent) extension))
  = Err e ->
  deriveChildKey args1 = deriveChildKey args2.
Proof.
  intros Hp1 Hp2 Hc Hn1 Hn2 Hinc Hi1 Hi2 Hext Hfail.
  pose proof (parseIndexPart_range _ _ Hi2) as Hrange.
  unfold deriveChildKey.
  rewrite Hp1, Hp2, <- Hc, Hn1, Hn2, <- Hinc, Hi1, Hi2.
  destruct (assert (String.eqb (name (Derivers.curve args1)) "secp256k1")
              msgCurve) as [[]|e0]; [|reflexivity].
  cbn [bind].
  destruct (includes s1 apostrophe
            && negb (isSome (Node.privateKeyBytes parent))); [reflexivity|].
  rewrite !deriveFromNode_eq, Hext.
  cbn [bind].
  rewrite (deriveNode_eq (nodeArgs parent _ i _ _ _)), Hfail.
  cbn [nodeArgs childIndex key isHardened curve chainCode].
  rewrite validateBIP32Index_valid by lia.
  reflexivity.
Qed.

(** X10. Every error [deriveChildKey] returns is one of its five
    validation errors, the invalid-index error of the exhausted retry,
    or a failure of [deriveSecretExtension] for the parent's private
    key; from a public-only parent it is always one of the first six. *)
Theorem deriveChildKey_errors (args : DeriveChildKeyArgs) (e : error) :
  deriveChildKey args = Err e ->
  In e [AssertionError msgPathNotString; AssertionError msgCurve;
        Error msgNoNode; Error msgHardened; Error msgIndex;
        Error msgNoValidChild]
  \/ exists parent privateKey s j,
      Derivers.node args = Some parent
      /\ Node.privateKeyBytes parent = Some privateKey
      /\ Derivers.path args = PathString s
      /\ 0 <= j < BIP_32_HARDENED_OFFSET
      /\ deriveSecretExtension privateKey j (includes s apostrophe)
           (Derivers.curve args)
         = Err e.
Proof.
  unfold deriveChildKey. intros Hfail.
  destruct (Derivers.path args) as [s|b] eqn:Hpath;
    [|injection Hfail as <-; left; simpl; auto].
  destruct (String.eqb (name (Derivers.curve args)) "secp256k1");
    cbn [assert bind] in Hfail;
    [|injection Hfail as <-; left; simpl; auto].
  destruct (Derivers.node args) as [parent|] eqn:Hnode;
    [|injection Hfail as <-; left; simpl; auto].
  destruct (includes s apostrophe
            && negb (isSome (Node.privateKeyBytes parent)));
    [injection Hfail as <-; left; simpl; auto 6|].
  destruct (parseIndexPart (splitHead s apostrophe)) as [i|e0] eqn:Hi.
  - pose proof (parseIndexPart_range _ _ Hi) as Hrange.
    cbn [bind] in Hfail. unfold deriveFromNode in Hfail.
    destruct (Node.privateKeyBytes parent) as [sk|] eqn:Hsk.
    + destruct (deriveSecretExtension sk i (includes s apostrophe)
                  (Derivers.curve args)) as [extension|e1] eqn:Hext.
      * cbn [bind] in Hfail.
        apply deriveNode_errors in Hfail
          as [-> | (sk' & j & Hkey & Hj & Hsecret)];
          [left; simpl; auto 8|].
        cbn [nodeArgs key childIndex isHardened curve] in Hkey, Hj, Hsecret.
        injection Hkey as <-.
        right. exists parent, sk, s, j. repeat split; auto; lia.
      * injection Hfail as <-.
        right. exists parent, sk, s, i. repeat split; auto; lia.
    + apply deriveNode_errors in Hfail
        as [-> | (sk' & j & Hkey & _)]; [left; simpl; auto 8|].
      discriminate Hkey.
  - cbn [bind] in Hfail. injection Hfail as <-.
    destruct (parseIndexPart_spec (splitHead s apostrophe)) as [Hyes Hno].
    left.
    destruct (testDecimal (splitHead s apostrophe)) eqn:Ht.
    + destruct (Z.lt_ge_cases (decimalValue (splitHead s apostrophe))
                  BIP_32_HARDENED_OFFSET) as [Hlt|Hge].
      * rewrite Hyes in Hi by auto. discriminate.
      * rewrite Hno in Hi by (intros [_ Hlt]; lia).
        injection Hi as <-. simpl; auto 8.
    + rewrite Hno in Hi by (intros [Hyes' _]; discriminate).
      injection Hi as <-. simpl; auto 8.
Qed.

(** X11. The first failing check decides the error, whatever comes
    after it and whatever the derivation functions are: a path that is
    not a string fails on the path check; a string path on a curve other
    than secp256k1 fails on the curve check; on secp256k1 a missing node
    fails on the node check even when the path text is no index; and a
    path with an apostrophe on a public-only parent fails on the
    hardened check even when its index part is no index. *)
Theorem deriveChildKey_check_order (args : DeriveChildKeyArgs) :
  (forall b, Derivers.path args = PathBytes b ->
             deriveChildKey args = Err (AssertionError msgPathNotString))
  /\ (forall s, Derivers.path args = PathString s ->
                name (Derivers.curve args) <> "secp256k1"%string ->
                deriveChildKey args = Err (AssertionError msgCurve))
  /\ (forall s, Derivers.path args = PathString s ->
                name (Derivers.curve args) = "secp256k1"%string ->
                Derivers.node args = None ->
                deriveChildKey args = Err (Error msgNoNode))
  /\ (forall s parent,
         Derivers.path args = PathString s ->
         name (Derivers.curve args) = "secp256k1"%string ->
         Derivers.node args = Some parent ->
         Node.privateKeyBytes parent = None ->
         includes s apostrophe = true ->
         deriveChildKey args = Err (Error msgHardened)).
Proof.
  split; [|split; [|split]].
  - intros b Hpath. unfold deriveChildKey. now rewrite Hpath.
  - intros s Hpath Hcurve. unfold deriveChildKey. rewrite Hpath.
    apply String.eqb_neq in Hcurve. now rewrite Hcurve.
  - intros s Hpath Hcurve Hnode. unfold deriveChildKey.
    now rewrite Hpath, Hcurve, Hnode.
  - intros s parent Hpath Hcurve Hnode Hsk Hinc. unfold deriveChildKey.
    now rewrite Hpath, Hcurve, Hnode, Hsk, Hinc.
Qed.

End PathFacts.

(** ** What the BIP-32 deriver reads of its parent *)

Section ParentFacts.

Import Bip32.
Context `{Shared} `{NodeEnv}.

(** X12. [deriveChildKey] reads the key material, the depth and the
    fingerprints of the parent, and nothing else: the curve recorded in
    the parent node is not compared with the curve of the request, and
    the parent's own index and parent fingerprint are not used. *)
Theorem deriveChildKey_ignores_parent_curve
    (args1 args2 : DeriveChildKeyArgs) (parent1 parent2 : SLIP10Node) :
  Derivers.path args1 = Derivers.path args2 ->
  Derivers.curve args1 = Derivers.curve args2 ->
  Derivers.node args1 = Some parent1 ->
  Derivers.node args2 = Some parent2 ->
  Node.privateKeyBytes parent1 = Node.privateKeyBytes parent2 ->
  Node.compressedPublicKeyBytes parent1 = Node.compressedPublicKeyBytes parent2 ->
  Node.chainCodeBytes parent1 = Node.chainCodeBytes parent2 ->
  Node.depth parent1 = Node.depth parent2 ->
  Node.masterFingerprint parent1 = Node.masterFingerprint parent2 ->
  deriveChildKey args1 = deriveChildKey args2.
Proof.
  intros Hp Hc Hn1 Hn2 Hsk Hpk Hcc Hd Hm.
  unfold deriveChildKey, deriveFromNode, nodeArgs, Node.fingerprint.
  now rewrite Hp, Hc, Hn1, Hn2, Hsk, Hpk, Hcc, Hd, Hm.
Qed.

End ParentFacts.

(** ** The Ethereum address helpers: sizes and the format byte *)

Section AddressShapeFacts.

Context `{Hashes}.
Variable secp256k1 : Curve.

Lemma lastn_length {A : Type} (n : nat) (l : list A) :
  (n <= List.length l)%nat -> List.length (lastn n l) = n.
Proof.
  intros Hn. unfold lastn. rewrite length_skipn. lia.
Qed.

(** X13. With a 32-byte Keccak-256, every address either helper returns
    has exactly 20 bytes. *)
Theorem eth_address_length :
  (forall message, List.length (keccak256 message) = 32%nat) ->
  (forall key addr,
      Bip32.publicKeyToEthAddress secp256k1 key = Ok addr ->
      List.length addr = 20%nat)
  /\ (forall key addr,
      Bip32.privateKeyToEthAddress secp256k1 key = Ok addr ->
      List.length addr = 20%nat).
Proof.
  intros Hhash.
  assert (Hpublic : forall key addr,
             Bip32.publicKeyToEthAddress secp256k1 key = Ok addr ->
             List.length addr = 20%nat).
  { intros key addr Hok. unfold Bip32.publicKeyToEthAddress in Hok.
    apply bind_ok in Hok as [[] [_ Hok]]. injection Hok as <-.
    change (-20) with (- Z.of_nat 20). rewrite slice_last.
    apply lastn_length. rewrite Hhash. lia. }
  split; [exact Hpublic|].
  intros key addr Hok. unfold Bip32.privateKeyToEthAddress in Hok.
  apply bind_ok in Hok as [[] [_ Hok]].
  apply bind_ok in Hok as [pk [_ Hok]].
  now apply (Hpublic pk).
Qed.

(** X14. [publicKeyToEthAddress] does not examine the format byte: for
    65 bytes the address is computed from the last 64 alone, whatever
    the first byte is, and a non-zero first byte is enough for the
    non-zero check even when the 64 bytes after it are all zero. *)
Theorem publicKeyToEthAddress_ignores_format_byte
    (format : byte) (point : bytes) :
  publicKeyLength secp256k1 = 65 ->
  List.length point = 64%nat ->
  format <> x00 \/ nonZero point ->
  Bip32.publicKeyToEthAddress secp256k1 (format :: point)
  = Ok (lastn 20 (keccak256 point)).
Proof.
  intros Hpl Hlen Hnz.
  apply (publicKeyToEthAddress_valid secp256k1 Hpl (format :: point)).
  - cbn [List.length]. lia.
  - destruct Hnz as [Hformat | (x & Hin & Hx)].
    + exists format. split; [now left | exact Hformat].
    + exists x. split; [now right | exact Hx].
Qed.

End AddressShapeFacts.

(** ** BIP-39: the two revisions and the chain into BIP-32 *)

Section Bip39ChainFacts.

Context `{Hashes} `{NodeEnv}.

(** X15. The earlier revision of [createBip39KeyFromSeed] checks nothing
    about the private key: it fails exactly when the public-key
    computation fails, with that failure.  On a private key outside
    ]0, n[ whose public key the curve still computes, it returns the key
    while the current revision fails with the invalid-private-key
    assertion. *)
Theorem createBip39KeyFromSeed_tuple_unchecked (seed : bytes) (curve : Curve) :
  let key := hmac_sha512 (secret curve) seed in
  (forall e,
      Bip39Tuple.createBip39KeyFromSeed seed curve = Err e <->
      getPublicKey curve (firstn 32 key) None = Err e)
  /\ (forall pk,
      ~ 0 < bytesToBigInt (firstn 32 key) < curve_n curve ->
      getPublicKey curve (firstn 32 key) None = Ok pk ->
      Bip39Tuple.createBip39KeyFromSeed seed curve
      = Ok (firstn 32 key, pk, firstn 32 (skipn 32 key))
      /\ Bip39.createBip39KeyFromSeed seed curve
         = Err (AssertionError Bip39.msgInvalidPrivateKey)).
Proof.
  intros key.
  assert (Hrun : Bip39Tuple.createBip39KeyFromSeed seed curve =
                 (publicKey <- getPublicKey curve (firstn 32 key) None ;;
                  Ok (firstn 32 key, publicKey, firstn 32 (skipn 32 key)))).
  { unfold Bip39Tuple.createBip39KeyFromSeed. fold key.
    rewrite slice_prefix, slice_window by lia. reflexivity. }
  split.
  - intros e. rewrite Hrun.
    destruct (getPublicKey curve (firstn 32 key) None) as [pk|e0];
      cbn [bind]; split; intros Heq; try discriminate Heq;
      injection Heq as <-; reflexivity.
  - intros pk Hrange Hpk. split.
    + now rewrite Hrun, Hpk.
    + unfold Bip39.createBip39KeyFromSeed, BYTES_KEY_LENGTH. fold key.
      rewrite slice_prefix by lia. change (Z.to_nat 32) with 32%nat.
      destruct (bytesToBigInt (firstn 32 key) >? 0) eqn:Hlo;
        destruct (bytesToBigInt (firstn 32 key) <? curve_n curve) eqn:Hhi;
        try reflexivity.
      exfalso. apply Hrange.
      apply Z.gtb_lt in Hlo. apply Z.ltb_lt in Hhi. lia.
Qed.

Context `{MnemonicLib} `{Shared}.

(** X16. A BIP-39 segment followed by a BIP-32 segment.  The node of the
    BIP-39 segment always carries a private key, so the BIP-32 deriver
    never refuses a hardened segment on it: after the index check it
    takes the private branch, with the two halves of the HMAC of the
    seed as key and chain code, depth 0, and the fingerprint of the root
    as parent fingerprint. *)
Theorem bip39_root_then_bip32
    (first second : DeriveChildKeyArgs) (root : SLIP10Node) (s : string) :
  Bip39.deriveChildKey first = Ok root ->
  Derivers.path second = PathString s ->
  name (Derivers.curve second) = "secp256k1"%string ->
  Derivers.node second = Some root ->
  exists seed,
    mnemonicToSeed (Derivers.path first) englishWordlist = Ok seed
    /\ let key := hmac_sha512 (secret (Derivers.curve first)) seed in
       Bip32.deriveChildKey second =
       (childIndex <- Bip32.parseIndexPart (splitHead s apostrophe) ;;
        extension <-
          deriveSecretExtension (firstn 32 key) childIndex
            (includes s apostrophe) (Derivers.curve second) ;;
        Bip32.deriveNode
          (Bip32.mkDeriveKeyArgs
             (Bip32.PrivateKey (firstn 32 key))
             (generateEntropy (skipn 32 key) extension)
             (skipn 32 key) childIndex (includes s apostrophe) 0
             (Node.fingerprint root) (Node.masterFingerprint root)
             (Derivers.curve second))).
Proof.
  intros Hroot Hpath Hcurve Hnode.
  unfold Bip39.deriveChildKey in Hroot.
  apply bind_ok in Hroot as [seed [Hseed Hroot]].
  exists seed. split; [exact Hseed|].
  apply createBip39KeyFromSeed_inv in Hroot
    as (_ & pk & pk' & c & _ & _ & _ & Hshape).
  cbv zeta.
  unfold Bip32.deriveChildKey. rewrite Hpath, Hcurve, Hnode.
  cbn [String.eqb assert bind].
  unfold Bip32.deriveFromNode, Bip32.nodeArgs.
  rewrite Hshape. cbn [Node.privateKeyBytes Node.chainCodeBytes Node.depth isSome negb].
  rewrite andb_false_r. reflexivity.
Qed.

(** X17. The two revisions of the BIP-39 [deriveChildKey] agree as
    well: when the two mnemonic expansions give the same seed for the
    segment, whatever both revisions return has the same private key and
    the same chain code. *)
Theorem bip39_deriveChildKey_revisions_agree
    (args : DeriveChildKeyArgs) (s : string)
    (sk pk cc : bytes) (nd : SLIP10Node) :
  (forall k m, List.length (hmac_sha512 k m) = 64%nat) ->
  Derivers.path args = PathString s ->
  mnemonicToSeedSync s = mnemonicToSeed (PathString s) englishWordlist ->
  Bip39Tuple.deriveChildKey s (Derivers.curve args) = Ok (sk, pk, cc) ->
  Bip39.deriveChildKey args = Ok nd ->
  Node.privateKeyBytes nd = Some sk /\ Node.chainCodeBytes nd = cc.
Proof.
  intros Hlen Hpath Hseeds Hold Hnew.
  unfold Bip39Tuple.deriveChildKey in Hold.
  unfold Bip39.deriveChildKey in Hnew.
  rewrite Hpath, <- Hseeds in Hnew.
  apply bind_ok in Hold as [seed [Hseed Hold]].
  rewrite Hseed in Hnew. cbn [bind] in Hnew.
  set (key := hmac_sha512 (secret (Derivers.curve args)) seed) in *.
  assert (Hwindow : slice key 32 (Some 64) = skipn 32 key).
  { rewrite slice_window by lia. apply firstn_all2.
    rewrite length_skipn. unfold key. rewrite Hlen. simpl. lia. }
  unfold Bip39Tuple.createBip39KeyFromSeed in Hold. fold key in Hold.
  rewrite slice_prefix, Hwindow in Hold by lia.
  change (Z.to_nat 32) with 32%nat in Hold.
  apply bind_ok in Hold as [pk0 [_ Hold]].
  apply createBip39KeyFromSeed_inv in Hnew
    as (_ & pk1 & pk' & c & _ & _ & _ & ->).
  fold key. cbn [Node.privateKeyBytes Node.chainCodeBytes].
  revert Hold. generalize (firstn 32 key) (skipn 32 key).
  intros first32 last32 [= <- _ <-]. split; reflexivity.
Qed.

End Bip39ChainFacts.

(** ** The further properties on closed arguments *)

Section FurtherWitnesses.

Import Bip32 Search.

Lemma fixture_keccak_length (message : bytes) :
  List.length (@keccak256 Fixture.hashes message) = 32%nat.
Proof.
  unfold keccak256, Fixture.hashes.
  rewrite length_firstn, length_app, repeat_length. lia.
Qed.

Lemma bip39MnemonicToMultipath_payload_normal_witness :
  isAsciiString "  Abandon ABILITY able  " = true
  /\ exists payload,
      bip39MnemonicToMultipath "  Abandon ABILITY able  "
      = ("bip39:" ++ payload)%string
      /\ hasUpper payload = false
      /\ startsWithWhiteSpace payload = false
      /\ endsWithWhiteSpace payload = false.
Proof.
  split; [reflexivity|].
  exact (bip39MnemonicToMultipath_payload_normal "  Abandon ABILITY able  "
           eq_refl).
Defined.

Example bip39MnemonicToMultipath_run :
  bip39MnemonicToMultipath "  Abandon ABILITY  able "
  = "bip39:abandon ability  able"%string.
Proof. reflexivity. Qed.

Lemma bip39MnemonicToMultipath_idempotent_witness :
  isAsciiString " Zoo WRONG " = true
  /\ bip39MnemonicToMultipath "zoo wrong"
     = bip39MnemonicToMultipath " Zoo WRONG ".
Proof.
  split; [reflexivity|].
  exact (bip39MnemonicToMultipath_idempotent " Zoo WRONG " eq_refl).
Defined.

Lemma bip39MnemonicToMultipath_ignores_case_and_padding_witness :
  bip39MnemonicToMultipath "  ZOO WRONG "
  = bip39MnemonicToMultipath "zoo wrong"
  /\ bip39MnemonicToMultipath "  zoo wrong "
     = bip39MnemonicToMultipath "zoo wrong".
Proof.
  exact (bip39MnemonicToMultipath_ignores_case_and_padding
           "  " "zoo wrong" " " eq_refl eq_refl eq_refl).
Defined.

(** With the private branch out of order the failure that reaches the
    caller is the one of the extension, not the one of the attempt. *)
Lemma deriveNode_errors_witness :
  @deriveNode Fixture.privateBranchDown Fixture.firstArgs
  = Err (Error Fixture.msgProvider)
  /\ (Error Fixture.msgProvider = Error msgNoValidChild
      \/ exists privateKey j,
          key Fixture.firstArgs = PrivateKey privateKey
          /\ childIndex Fixture.firstArgs < j < BIP_32_HARDENED_OFFSET
          /\ @deriveSecretExtension Fixture.privateBranchDown privateKey j
               (isHardened Fixture.firstArgs) (curve Fixture.firstArgs)
             = Err (Error Fixture.msgProvider)).
Proof.
  assert (Hrun : @deriveNode Fixture.privateBranchDown Fixture.firstArgs
                 = Err (Error Fixture.msgProvider))
    by (rewrite deriveNode_eq; reflexivity).
  split; [exact Hrun|].
  exact (@deriveNode_errors Fixture.privateBranchDown Fixture.firstArgs
           (Error Fixture.msgProvider) Hrun).
Defined.

Lemma deriveNode_exhausts_range_witness :
  @deriveNode Fixture.neverValid (atIndex Fixture.firstArgs 2147483645 [])
  = Err (Error msgNoValidChild).
Proof.
  apply (@deriveNode_exhausts_range Fixture.neverValid
           (atIndex Fixture.firstArgs 2147483645 [])
           (Error Fixture.msgInvalidScalar) eq_refl).
  - intros k Hk. eexists. eexists. split; reflexivity.
  - cbn. lia.
Defined.

Lemma deriveChildKey_uses_one_branch_witness :
  @deriveChildKey Fixture.alwaysValid Fixture.env
    (Fixture.request "3" (Some Fixture.publicParent) None)
  = @deriveChildKey Fixture.privateBranchDown Fixture.env
      (Fixture.request "3" (Some Fixture.publicParent) None).
Proof.
  apply (proj1 (@deriveChildKey_uses_one_branch Fixture.env
                  Fixture.alwaysValid Fixture.privateBranchDown
                  (Fixture.request "3" (Some Fixture.publicParent) None)
                  Fixture.publicParent eq_refl
                  (fun _ _ => eq_refl))).
  - reflexivity.
  - intros pk i. reflexivity.
  - intros ent pk d mfp pfp i c. reflexivity.
Defined.

Lemma deriveChildKey_ignores_text_after_apostrophe_witness :
  @deriveChildKey Fixture.invalidBelow2 Fixture.env
    (Fixture.request "1'" (Some Fixture.parent) None)
  = @deriveChildKey Fixture.invalidBelow2 Fixture.env
      (Fixture.request "1'/2'" (Some Fixture.parent) None).
Proof.
  exact (@deriveChildKey_ignores_text_after_apostrophe
           Fixture.invalidBelow2 Fixture.env
           (Fixture.request "1'" (Some Fixture.parent) None)
           (Fixture.request "1'/2'" (Some Fixture.parent) None)
           "1" "" "/2'" eq_refl eq_refl eq_refl eq_refl).
Defined.

Lemma deriveChildKey_ignores_leading_zero_witness :
  testDecimal "7" = true
  /\ @deriveChildKey Fixture.invalidBelow2 Fixture.env
       (Fixture.request "07'" (Some Fixture.parent) None)
     = @deriveChildKey Fixture.invalidBelow2 Fixture.env
         (Fixture.request "7'" (Some Fixture.parent) None).
Proof.
  split; [reflexivity|].
  exact (@deriveChildKey_ignores_leading_zero
           Fixture.invalidBelow2 Fixture.env
           (Fixture.request "07'" (Some Fixture.parent) None)
           (Fixture.request "7'" (Some Fixture.parent) None)
           "7'" eq_refl eq_refl eq_refl eq_refl eq_refl).
Defined.

(** The hardened indices 0 and 1 of the fixture parent, both invalid,
    are the same request. *)
Lemma deriveChildKey_invalid_index_aliases_next_witness :
  @attempt Fixture.invalidBelow2 Fixture.firstArgs
  = Err (Error Fixture.msgInvalidScalar)
  /\ @deriveChildKey Fixture.invalidBelow2 Fixture.env
       (Fixture.request "0'" (Some Fixture.parent) None)
     = @deriveChildKey Fixture.invalidBelow2 Fixture.env
         (Fixture.request "1'" (Some Fixture.parent) None).
Proof.
  split; [reflexivity|].
  exact (@deriveChildKey_invalid_index_aliases_next
           Fixture.invalidBelow2 Fixture.env
           (Fixture.request "0'" (Some Fixture.parent) None)
           (Fixture.request "1'" (Some Fixture.parent) None)
           "0'" "1'" Fixture.parent 0
           (repeat x09 32 ++ [x01; x00])
           (Error Fixture.msgInvalidScalar)
           eq_refl eq_refl eq_refl eq_refl eq_refl eq_refl eq_refl eq_refl
           eq_refl eq_refl).
Defined.

Lemma deriveChildKey_errors_witness :
  @deriveChildKey Fixture.alwaysValid Fixture.env
    (Fixture.request "0'" (Some Fixture.publicParent) None)
  = Err (Error msgHardened)
  /\ (In (Error msgHardened)
        [AssertionError msgPathNotString; AssertionError msgCurve;
         Error msgNoNode; Error msgHardened; Error msgIndex;
         Error msgNoValidChild]
      \/ exists parent privateKey s j,
          Some Fixture.publicParent = Some parent
          /\ Node.privateKeyBytes parent = Some privateKey
          /\ PathString "0'" = PathString s
          /\ 0 <= j < BIP_32_HARDENED_OFFSET
          /\ @deriveSecretExtension Fixture.alwaysValid privateKey j
               (includes s apostrophe) Fixture.secp256k1
             = Err (Error msgHardened)).
Proof.
  split; [reflexivity|].
  exact (@deriveChildKey_errors Fixture.alwaysValid Fixture.env
           (Fixture.request "0'" (Some Fixture.publicParent) None)
           (Error msgHardened) eq_refl).
Defined.

Lemma deriveChildKey_check_order_witness :
  @deriveChildKey Fixture.alwaysValid Fixture.env
    (Derivers.mkArgs (PathString "not an index")
       (mkCurve "ed25519" 0 [] 32 (fun _ _ => Ok [])) None None)
  = Err (AssertionError msgCurve)
  /\ @deriveChildKey Fixture.alwaysValid Fixture.env
       (Fixture.request "x'" (Some Fixture.publicParent) None)
     = Err (Error msgHardened).
Proof.
  split.
  - apply (proj1 (proj2 (@deriveChildKey_check_order Fixture.alwaysValid
                           Fixture.env
                           (Derivers.mkArgs (PathString "not an index")
                              (mkCurve "ed25519" 0 [] 32 (fun _ _ => Ok []))
                              None None)))
             "not an index"%string eq_refl).
    discriminate.
  - exact (proj2 (proj2 (proj2 (@deriveChildKey_check_order
                                  Fixture.alwaysValid Fixture.env
                                  (Fixture.request "x'"
                                     (Some Fixture.publicParent) None))))
             "x'"%string Fixture.publicParent
             eq_refl eq_refl eq_refl eq_refl eq_refl).
Defined.

Lemma deriveChildKey_ignores_parent_curve_witness :
  Node.curve Fixture.foreignParent <> Node.curve Fixture.parent
  /\ @deriveChildKey Fixture.invalidBelow2 Fixture.env
       (Fixture.request "0'" (Some Fixture.foreignParent) None)
     = @deriveChildKey Fixture.invalidBelow2 Fixture.env
         (Fixture.request "0'" (Some Fixture.parent) None).
Proof.
  split; [discriminate|].
  exact (@deriveChildKey_ignores_parent_curve
           Fixture.invalidBelow2 Fixture.env
           (Fixture.request "0'" (Some Fixture.foreignParent) None)
           (Fixture.request "0'" (Some Fixture.parent) None)
           Fixture.foreignParent Fixture.parent
           eq_refl eq_refl eq_refl eq_refl eq_refl eq_refl eq_refl eq_refl
           eq_refl).
Defined.

Lemma eth_address_length_witness :
  (forall message, List.length (@keccak256 Fixture.hashes message) = 32%nat)
  /\ forall addr,
      @privateKeyToEthAddress Fixture.hashes Fixture.secp256k1 (repeat x09 32)
      = Ok addr ->
      List.length addr = 20%nat.
Proof.
  split; [exact fixture_keccak_length|].
  exact (proj2 (@eth_address_length Fixture.hashes Fixture.secp256k1
                  fixture_keccak_length)
           (repeat x09 32)).
Defined.

(** A format byte 02 in front of 64 zero bytes passes the checks. *)
Lemma publicKeyToEthAddress_ignores_format_byte_witness :
  @publicKeyToEthAddress Fixture.hashes Fixture.secp256k1
    (x02 :: repeat x00 64)
  = Ok (repeat x00 20).
Proof.
  apply (@publicKeyToEthAddress_ignores_format_byte Fixture.hashes
           Fixture.secp256k1 x02 (repeat x00 64) eq_refl eq_refl).
  left. discriminate.
Defined.

Lemma createBip39KeyFromSeed_tuple_unchecked_witness :
  ~ 0 < bytesToBigInt (x2a :: repeat x01 31) < curve_n Fixture.smallOrder
  /\ @Bip39Tuple.createBip39KeyFromSeed Fixture.hashes [x2a]
       Fixture.smallOrder
     = Ok (x2a :: repeat x01 31,
           x04 :: x2a :: repeat x01 31 ++ repeat x07 32,
           repeat x01 32)
  /\ @Bip39.createBip39KeyFromSeed Fixture.hashes Fixture.env [x2a]
       Fixture.smallOrder
     = Err (AssertionError Bip39.msgInvalidPrivateKey).
Proof.
  assert (Hrange : ~ 0 < bytesToBigInt (x2a :: repeat x01 31)
                     < curve_n Fixture.smallOrder).
  { intros [_ Hhi]. vm_compute in Hhi. discriminate Hhi. }
  split; [exact Hrange|].
  exact (proj2 (@createBip39KeyFromSeed_tuple_unchecked Fixture.hashes
                  Fixture.env [x2a] Fixture.smallOrder)
           (x04 :: x2a :: repeat x01 31 ++ repeat x07 32) Hrange eq_refl).
Defined.

Lemma bip39_root_then_bip32_witness :
  exists root seed,
    @Bip39.deriveChildKey Fixture.hashes Fixture.env Fixture.mnemonics
      (Fixture.request "abandon" None None)
    = Ok root
    /\ @mnemonicToSeed Fixture.mnemonics (PathString "abandon")
         (@englishWordlist Fixture.mnemonics)
       = Ok seed
    /\ @deriveChildKey Fixture.alwaysValid Fixture.env
         (Fixture.request "44'" (Some root) None)
       = (childIndex <- parseIndexPart "44" ;;
          extension <-
            @deriveSecretExtension Fixture.alwaysValid
              (firstn 32 (@hmac_sha512 Fixture.hashes
                            (secret Fixture.secp256k1) seed))
              childIndex true Fixture.secp256k1 ;;
          @deriveNode Fixture.alwaysValid
            (mkDeriveKeyArgs
               (PrivateKey
                  (firstn 32 (@hmac_sha512 Fixture.hashes
                                (secret Fixture.secp256k1) seed)))
               (@generateEntropy Fixture.alwaysValid
                  (skipn 32 (@hmac_sha512 Fixture.hashes
                               (secret Fixture.secp256k1) seed))
                  extension)
               (skipn 32 (@hmac_sha512 Fixture.hashes
                            (secret Fixture.secp256k1) seed))
               childIndex true 0
               (@Node.fingerprint Fixture.env root)
               (Node.masterFingerprint root) Fixture.secp256k1)).
Proof.
  destruct (@Bip39.deriveChildKey Fixture.hashes Fixture.env Fixture.mnemonics
              (Fixture.request "abandon" None None)) as [root|e] eqn:Hroot;
    [|discriminate Hroot].
  destruct (@bip39_root_then_bip32 Fixture.hashes Fixture.env
              Fixture.mnemonics Fixture.alwaysValid
              (Fixture.request "abandon" None None)
              (Fixture.request "44'" (Some root) None)
              root "44'" Hroot eq_refl eq_refl eq_refl)
    as (seed & Hseed & Hchain).
  exists root, seed. split; [reflexivity|]. split; [exact Hseed|].
  exact Hchain.
Defined.

Lemma bip39_deriveChildKey_revisions_agree_witness :
  exists nd,
    @Bip39.deriveChildKey Fixture.hashes Fixture.env Fixture.mnemonics
      (Fixture.request "abandon" None None)
    = Ok nd
    /\ Node.privateKeyBytes nd
       = Some (map byte_of_ascii (list_ascii_of_string "abandon")
                 ++ repeat x01 25)
    /\ Node.chainCodeBytes nd = repeat x01 32.
Proof.
  destruct (@Bip39.deriveChildKey Fixture.hashes Fixture.env Fixture.mnemonics
              (Fixture.request "abandon" None None)) as [nd|e] eqn:Hnew;
    [|discriminate Hnew].
  exists nd. split; [reflexivity|].
  exact (@bip39_deriveChildKey_revisions_agree Fixture.hashes Fixture.env
           Fixture.mnemonics
           (Fixture.request "abandon" None None) "abandon"
           (map byte_of_ascii (list_ascii_of_string "abandon")
              ++ repeat x01 25)
           (x04 :: (map byte_of_ascii (list_ascii_of_string "abandon")
                      ++ repeat x01 25) ++ repeat x07 32)
           (repeat x01 32) nd
           fixture_hmac_length eq_refl eq_refl eq_refl Hnew).
Defined.

End FurtherWitnesses.
